(** * parse_logs.py: the Spotify error/warning log filter

    A shallow embedding of [parse_logs.py] and the properties of its reverse
    scan.  The script reads a JSON-lines log, walks its lines from the last to
    the first, keeps the lines that pass a raw-text test on the level, parse as
    JSON and mention Spotify in their message, and writes a short text record
    for each of them until thirty have been counted.

    Layout of the development:
    - [PyStr]: Python [str] values as sequences of code points, the [in]
      operator on strings and the strictness of the UTF-8 encoder;
    - [Json]: the values [json.loads] returns and the Python operations the
      script applies to them ([get], [in], subscripting, slicing);
    - [Eff]: the state-and-exception monad in which the loop body runs;
    - [LogFilter]: the script itself, parameterised by the two library
      functions it calls ([json.loads] and [repr]);
    - [Ref]: a reference JSON decoder and [repr], used to run the script on
      concrete log lines;
    - [Spec]: the notions the properties are stated with (qualifying line,
      record, what a line emits);
    - [Samples]: log lines and logs for the examples;
    - [PyFacts], [BodyFacts], [ScanFacts]: lemmas on strings, on one run of
      the loop body and on the loop;
    - [Properties]: the properties of the script, each followed further down
      by its example on sample lines. *)

From Stdlib Require Import List Bool Arith NArith Lia String Ascii.
From Stdlib Require Import DecimalString.
Import ListNotations.

Set Warnings "-register-all".

(* ------------------------------------------------------------------ *)
(** ** Python strings *)

Module PyStr.

(** A Python [str] is a sequence of Unicode code points. *)
Definition pychar := N.
Definition pystr := list pychar.

(** A string literal of the script. *)
Definition lit (s : string) : pystr :=
  List.map N_of_ascii (list_ascii_of_string s).

Definition NL : pychar := 10%N.

Fixpoint eqb (s t : pystr) : bool :=
  match s, t with
  | [], [] => true
  | a :: s', b :: t' => N.eqb a b && eqb s' t'
  | _, _ => false
  end.

(** [startswith p s]: [s] begins with [p]. *)
Fixpoint startswith (p s : pystr) : bool :=
  match p, s with
  | [], _ => true
  | a :: p', b :: s' => N.eqb a b && startswith p' s'
  | _ :: _, [] => false
  end.

(** [contains p s] is Python's [p in s] on two strings: [p] occurs in [s] as
    a contiguous run of characters. *)
Fixpoint contains (p s : pystr) : bool :=
  startswith p s ||
  match s with
  | [] => false
  | _ :: s' => contains p s'
  end.

(** The mathematical notion the [in] operator decides. *)
Definition Substring (p s : pystr) : Prop :=
  exists pre post, s = pre ++ p ++ post.

(** [s[:n]] *)
Definition slice_to (n : nat) (s : pystr) : pystr := firstn n s.

(** Surrogate code points cannot be encoded by the strict UTF-8 codec. *)
Definition is_surrogate (c : pychar) : bool :=
  (N.leb 55296 c && N.leb c 57343)%N.

(** [utf8_ok s]: [s.encode('utf-8')] succeeds. *)
Definition utf8_ok (s : pystr) : bool :=
  forallb (fun c => negb (is_surrogate c)) s.

(** [str(n)] for a non-negative integer. *)
Definition of_nat (n : nat) : pystr :=
  lit (NilZero.string_of_uint (Nat.to_uint n)).

End PyStr.

(* ------------------------------------------------------------------ *)
(** ** JSON values and the Python operations applied to them *)

Module Json.
Import PyStr.

(** What [json.loads] can return: [None], [bool], a number ([int] or
    [float], kept as the text of its literal since the script never computes
    with it), [str], [list] and [dict].  A [dict] keeps its insertion order;
    [lookup] reads the first binding of a key. *)
Inductive value : Type :=
| Null
| Bool (b : bool)
| Number (text : pystr)
| Str (s : pystr)
| Array (xs : list value)
| Object (kvs : list (pystr * value)).

(** The exceptions the loop body can meet.  [json.JSONDecodeError] is a
    [ValueError]. *)
Inductive exn : Type :=
| ValueError
| AttributeError
| TypeError
| KeyError
| UnicodeEncodeError.

Inductive result (A : Type) : Type :=
| Ok (a : A)
| Raise (e : exn).
Arguments Ok {A} a.
Arguments Raise {A} e.

Fixpoint lookup (k : pystr) (kvs : list (pystr * value)) : option value :=
  match kvs with
  | [] => None
  | (k', v) :: rest => if eqb k k' then Some v else lookup k rest
  end.

Definition has_key (k : pystr) (kvs : list (pystr * value)) : bool :=
  match lookup k kvs with Some _ => true | None => false end.

(** [x == s] for a string [s]: only an equal string compares equal. *)
Definition is_str (s : pystr) (x : value) : bool :=
  match x with
  | Str t => eqb s t
  | _ => false
  end.

(** [v.get(k, default)]: only a [dict] has the method. *)
Definition get (v : value) (k : pystr) (default : value) : result value :=
  match v with
  | Object kvs =>
      Ok (match lookup k kvs with Some x => x | None => default end)
  | _ => Raise AttributeError
  end.

(** [s in v] for a string [s]: substring test on a [str], membership on a
    [list], key membership on a [dict]; the other values are not containers. *)
Definition py_in (s : pystr) (v : value) : result bool :=
  match v with
  | Str t => Ok (contains s t)
  | Array xs => Ok (existsb (is_str s) xs)
  | Object kvs => Ok (has_key s kvs)
  | Null | Bool _ | Number _ => Raise TypeError
  end.

(** [v[k]] for a string key [k]. *)
Definition getitem (v : value) (k : pystr) : result value :=
  match v with
  | Object kvs =>
      match lookup k kvs with
      | Some x => Ok x
      | None => Raise KeyError
      end
  | _ => Raise TypeError
  end.

(** [v[:n]]: strings and lists can be sliced.  A [dict] cannot ([TypeError];
    [KeyError] from Python 3.12 on), nor can the scalar values. *)
Definition slice_to (n : nat) (v : value) : result value :=
  match v with
  | Str s => Ok (Str (PyStr.slice_to n s))
  | Array xs => Ok (Array (firstn n xs))
  | Null | Bool _ | Number _ | Object _ => Raise TypeError
  end.

(** [format(v, '')] as an f-string field does it: a string is inserted as it
    is, any other value through its [repr]. *)
Definition text (repr : value -> pystr) (v : value) : pystr :=
  match v with
  | Str s => s
  | _ => repr v
  end.

End Json.

(* ------------------------------------------------------------------ *)
(** ** State and exceptions *)

Module Eff.
Import PyStr Json.

(** The state the loop works on: the chunks written so far to the open output
    file (one per call of [outfile.write]), the match counter, and what has
    been printed to the console. *)
Record state : Type := mkState {
  outfile : list pystr;
  count : nat;
  console : list pystr
}.

(** A computation reads and updates the state and either returns a value or
    raises; the state reached when it raises is kept. *)
Definition M (A : Type) : Type := state -> state * result A.

Definition ret {A} (a : A) : M A := fun st => (st, Ok a).

Definition bind {A B} (m : M A) (k : A -> M B) : M B :=
  fun st =>
    match m st with
    | (st', Ok a) => k a st'
    | (st', Raise e) => (st', Raise e)
    end.

(** A pure Python operation, which returns or raises without touching the
    state. *)
Definition lift {A} (r : result A) : M A := fun st => (st, r).

(** [outfile.write(s)]: the text layer encodes [s] before it buffers it, so a
    string the codec refuses raises and adds nothing to the file. *)
Definition write (s : pystr) : M unit :=
  fun st =>
    if utf8_ok s
    then (mkState (outfile st ++ [s]) (count st) (console st), Ok tt)
    else (st, Raise UnicodeEncodeError).

(** [count += 1] *)
Definition incr_count : M unit :=
  fun st => (mkState (outfile st) (S (count st)) (console st), Ok tt).

(** [try: m  except: pass] *)
Definition try_except_pass (m : M unit) : state -> state :=
  fun st => fst (m st).

End Eff.

Declare Scope eff_scope.
Delimit Scope eff_scope with eff.
Notation "x <- m ;; k" := (Eff.bind m (fun x => k))
  (at level 61, m at next level, right associativity) : eff_scope.
Notation "m ;; k" := (Eff.bind m (fun _ => k))
  (at level 61, right associativity) : eff_scope.

(* ------------------------------------------------------------------ *)
(** ** The script *)

Module LogFilter.
Import PyStr Json Eff.
Local Open Scope eff_scope.

(** The double quote, and the raw text of a JSON member [@l] whose value is
    the string [name], written without any blank. *)
Definition dq : pychar := 34%N.

Definition level_tag (name : string) : pystr :=
  [dq] ++ lit "@l" ++ [dq] ++ lit ":" ++ [dq] ++ lit name ++ [dq].

Definition log_file : string := "logs/log20251226.json".
Definition out_file : string := "recent_spotify_errors.txt".

(** The cap of the loop ([if count >= 30: break]). *)
Definition cap : nat := 30.

(** [f.readlines()] on a file opened in text mode with universal newlines:
    the text is cut after every line end, and the line ends [\r\n] and [\r]
    are handed over as [\n].  [cur] is the current line, reversed. *)
Fixpoint readlines_from (cur : pystr) (s : pystr) : list pystr :=
  match s with
  | [] => match cur with [] => [] | _ => [rev cur] end
  | c :: r =>
      if N.eqb c 10 then rev (NL :: cur) :: readlines_from [] r
      else if N.eqb c 13 then
        match r with
        | c' :: r' =>
            if N.eqb c' 10 then rev (NL :: cur) :: readlines_from [] r'
            else rev (NL :: cur) :: readlines_from [] r
        | [] => rev (NL :: cur) :: readlines_from [] r
        end
      else readlines_from (c :: cur) r
  end.

Definition readlines (s : pystr) : list pystr := readlines_from [] s.

(** The lexical pre-filter of the loop: the raw line contains the member
    [@l] with value [Error], or with value [Warning]. *)
Definition prefilter (line : pystr) : bool :=
  contains (level_tag "Error") line || contains (level_tag "Warning") line.

Section Script.

(** The two library functions the script relies on.  [json_loads line] is
    [json.loads(line)], with [None] standing for any exception it raises;
    [repr] is the interpreter's [repr], which an f-string applies to every
    value that is not a string. *)
Variable json_loads : pystr -> option value.
Variable repr : value -> pystr.

Definition loads (line : pystr) : result value :=
  match json_loads line with
  | Some v => Ok v
  | None => Raise ValueError
  end.

Definition fmt (v : value) : pystr := text repr v.

(** The text of the four [outfile.write] calls. *)
Definition main_line (t l msg : value) : pystr :=
  lit "[" ++ fmt t ++ lit "] " ++ fmt l ++ lit ": " ++ fmt msg ++ [NL].

Definition status_line (s : value) : pystr :=
  lit "   Status: " ++ fmt s ++ [NL].

Definition response_line (r : value) : pystr :=
  lit "   Response: " ++ fmt r ++ [NL].

Definition exception_line (x : value) : pystr :=
  lit "   Exception: " ++ fmt x ++ lit "..." ++ [NL].

(** The body of the [try] statement, in the order the script evaluates it. *)
Definition try_block (line : pystr) : M unit :=
  entry <- lift (loads line) ;;
  msg <- lift (get entry (lit "@mt") (Str [])) ;;
  found <- lift (py_in (lit "Spotify") msg) ;;
  if found : bool then
    t <- lift (get entry (lit "@t") Null) ;;
    l <- lift (get entry (lit "@l") Null) ;;
    write (main_line t l msg) ;;
    has_status <- lift (py_in (lit "Status") entry) ;;
    (if has_status : bool then
       s <- lift (getitem entry (lit "Status")) ;;
       write (status_line s)
     else ret tt) ;;
    has_response <- lift (py_in (lit "Response") entry) ;;
    (if has_response : bool then
       r <- lift (getitem entry (lit "Response")) ;;
       write (response_line r)
     else ret tt) ;;
    has_x <- lift (py_in (lit "@x") entry) ;;
    (if has_x : bool then
       x <- lift (getitem entry (lit "@x")) ;;
       x500 <- lift (Json.slice_to 500 x) ;;
       write (exception_line x500)
     else ret tt) ;;
    incr_count
  else ret tt.

(** One iteration of the loop, below the [break] test. *)
Definition body (line : pystr) (st : state) : state :=
  if prefilter line
  then try_except_pass (try_block line) st
  else st.

(** [for line in reversed(lines): if count >= 30: break; ...], run on the
    lines in the order the loop visits them.  Besides the final state it
    returns the lines the body was never run on: the one at which the loop
    broke off and those after it. *)
Fixpoint scan (ls : list pystr) (st : state) : state * list pystr :=
  match ls with
  | [] => (st, [])
  | line :: rest =>
      if cap <=? count st then (st, ls)
      else scan rest (body line st)
  end.

(** The [with open(..., 'w')] block on the lines read from the log:
    the output starts empty and the counter at zero. *)
Definition filter_lines (lines : list pystr) (printed : list pystr)
  : state * list pystr :=
  scan (rev lines) (mkState [] 0 printed).

(** *** The whole program *)

(** What a path that exists leads to: a regular file that reads as UTF-8
    text, or something [open] and [readlines] fail on (a directory, a file
    without read permission, bytes that are not UTF-8). *)
Inductive node : Type :=
| Text (content : pystr)
| Opaque.

(** The files the program can see and the console.  [files w p = None] when
    [os.path.exists(p)] is false; [sealed w p] holds when [p] cannot be
    opened for writing (a directory, no permission, a directory that is
    missing or read-only). *)
Record world : Type := mkWorld {
  files : string -> option node;
  sealed : string -> bool;
  stdout : list pystr
}.

Inductive outcome : Type :=
| Exited      (* [exit()] was called *)
| Completed   (* the script ran to its end *)
| Crashed.    (* an exception left the script *)

(** [print(s)] *)
Definition print (s : pystr) (w : world) : world :=
  mkWorld (files w) (sealed w) (stdout w ++ [s ++ [NL]]).

Definition store (path : string) (content : pystr)
  (fs : string -> option node) : string -> option node :=
  fun p => if String.eqb p path then Some (Text content) else fs p.

(** The script from its first line to its last.  The two [open] calls and
    [readlines] stand outside every [try]: when one of them raises, the
    script ends there, with what was printed so far and no file changed. *)
Definition program (w : world) : outcome * world :=
  match files w log_file with
  | None => (Exited, print (lit "Log file not found") w)
  | Some Opaque => (Crashed, w)
  | Some (Text content) =>
      let lines := readlines content in
      let w1 := print (lit "Total lines: " ++ of_nat (List.length lines)) w in
      let w2 := print (lit "Last 10 Errors/Warnings with 'Spotify':") w1 in
      if sealed w2 out_file then (Crashed, w2)
      else
        let st := fst (filter_lines lines (stdout w2)) in
        (Completed,
         mkWorld (store out_file (List.concat (outfile st)) (files w2))
           (sealed w2) (console st))
  end.

End Script.
End LogFilter.

(* ------------------------------------------------------------------ *)
(** ** A reference decoder and [repr] *)

(** [Ref.loads] follows the grammar of Python's [json] decoder: white space
    is blank, tab, line feed and carriage return; a document is one value
    between optional white space; an object keeps the last value given for a
    repeated key, at the place of the first; strings are strict (no raw
    control character) with the two-character escapes for the quote, the
    backslash, the slash and [b f n r t], and with [\uXXXX], a high and
    a low surrogate escape in a row making one character; a number is an
    optional minus sign, an integer part without a leading zero, an optional
    fraction and an optional exponent, and [NaN], [Infinity] and [-Infinity]
    are accepted.  The limits of the interpreter (depth of nesting, length
    of an integer literal) are left out.  The decoder serves to run the
    script on concrete lines; the properties of the script below hold for
    every decoder. *)
Module Ref.
Import PyStr Json.
Local Open Scope N_scope.

Definition is_ws (c : pychar) : bool :=
  N.eqb c 32 || N.eqb c 9 || N.eqb c 10 || N.eqb c 13.

Fixpoint skip_ws (s : pystr) : pystr :=
  match s with
  | c :: r => if is_ws c then skip_ws r else s
  | [] => []
  end.

Definition is_digit (c : pychar) : bool := (N.leb 48 c && N.leb c 57)%N.

(** The longest run of digits at the head of [s], and what follows it. *)
Fixpoint digits (s : pystr) : pystr * pystr :=
  match s with
  | c :: r =>
      if is_digit c then let (ds, r') := digits r in (c :: ds, r')
      else ([], s)
  | [] => ([], [])
  end.

Definition hex_val (c : pychar) : option N :=
  if (N.leb 48 c && N.leb c 57)%N then Some (c - 48)%N
  else if (N.leb 97 c && N.leb c 102)%N then Some (c - 87)%N
  else if (N.leb 65 c && N.leb c 70)%N then Some (c - 55)%N
  else None.

(** Four hexadecimal digits. *)
Definition hex4 (s : pystr) : option (N * pystr) :=
  match s with
  | a :: b :: c :: d :: r =>
      match hex_val a, hex_val b, hex_val c, hex_val d with
      | Some x, Some y, Some z, Some w =>
          Some ((((x * 16 + y) * 16 + z) * 16 + w)%N, r)
      | _, _, _, _ => None
      end
  | _ => None
  end.

Definition is_high (c : N) : bool := (N.leb 55296 c && N.leb c 56319)%N.
Definition is_low (c : N) : bool := (N.leb 56320 c && N.leb c 57343)%N.

(** The character a [\u] escape stands for, [s] being the text after [\u]. *)
Definition unicode_escape (s : pystr) : option (pychar * pystr) :=
  match hex4 s with
  | Some (c, r) =>
      if is_high c then
        match r with
        | 92 :: 117 :: r2 =>
            match hex4 r2 with
            | Some (c2, r3) =>
                if is_low c2
                then Some ((65536 + ((c - 55296) * 1024 + (c2 - 56320)))%N, r3)
                else Some (c, r)
            | None => None
            end
        | _ => Some (c, r)
        end
      else Some (c, r)
  | None => None
  end.

Definition simple_escape (c : pychar) : option pychar :=
  if N.eqb c 34 then Some 34         (* quote *)
  else if N.eqb c 92 then Some 92    (* backslash *)
  else if N.eqb c 47 then Some 47    (* slash *)
  else if N.eqb c 98 then Some 8     (* b: backspace *)
  else if N.eqb c 102 then Some 12   (* f: form feed *)
  else if N.eqb c 110 then Some 10   (* n: line feed *)
  else if N.eqb c 114 then Some 13   (* r: carriage return *)
  else if N.eqb c 116 then Some 9    (* t: tab *)
  else None.

(** The body of a string, after its opening quote; [acc] is the text decoded
    so far, reversed. *)
Fixpoint scan_string (fuel : nat) (acc : pystr) (s : pystr)
  : option (pystr * pystr) :=
  match fuel with
  | O => None
  | S fuel' =>
      match s with
      | [] => None
      | c :: r =>
          if N.eqb c 34 then Some (rev acc, r)
          else if N.eqb c 92 then
            match r with
            | [] => None
            | e :: r' =>
                if N.eqb e 117 then
                  match unicode_escape r' with
                  | Some (u, r2) => scan_string fuel' (u :: acc) r2
                  | None => None
                  end
                else
                  match simple_escape e with
                  | Some u => scan_string fuel' (u :: acc) r'
                  | None => None
                  end
            end
          else if N.ltb c 32 then None
          else scan_string fuel' (c :: acc) r
      end
  end.

(** A number literal at the head of [s]. *)
Definition scan_number (s : pystr) : option (pystr * pystr) :=
  let (sign, s1) :=
    match s with
    | c :: r => if N.eqb c 45 then ([c], r) else ([], s)
    | [] => ([], s)
    end in
  let int_part :=
    match s1 with
    | c :: r =>
        if N.eqb c 48 then Some ([c], r)
        else if is_digit c then let (ds, r') := digits r in Some (c :: ds, r')
        else None
    | [] => None
    end in
  match int_part with
  | None => None
  | Some (ip, s2) =>
      let (frac, s3) :=
        match s2 with
        | c :: r =>
            if N.eqb c 46 then
              match digits r with
              | ([], _) => ([], s2)
              | (ds, r') => (c :: ds, r')
              end
            else ([], s2)
        | [] => ([], s2)
        end in
      let (ex, s4) :=
        match s3 with
        | c :: r =>
            if N.eqb c 101 || N.eqb c 69 then
              let (sg, r1) :=
                match r with
                | g :: r0 =>
                    if N.eqb g 45 || N.eqb g 43 then ([g], r0) else ([], r)
                | [] => ([], r)
                end in
              match digits r1 with
              | ([], _) => ([], s3)
              | (ds, r') => (c :: sg ++ ds, r')
              end
            else ([], s3)
        | [] => ([], s3)
        end in
      Some (sign ++ ip ++ frac ++ ex, s4)
  end.

(** [word w s]: [s] without its prefix [w]. *)
Fixpoint word (w s : pystr) : option pystr :=
  match w, s with
  | [], _ => Some s
  | a :: w', b :: s' => if N.eqb a b then word w' s' else None
  | _ :: _, [] => None
  end.

(** [d[k] = v] on a [dict] kept as an association list. *)
Fixpoint dict_set (k : pystr) (v : value) (kvs : list (pystr * value))
  : list (pystr * value) :=
  match kvs with
  | [] => [(k, v)]
  | (k', v') :: rest =>
      if eqb k k' then (k', v) :: rest else (k', v') :: dict_set k v rest
  end.

Definition keyword (w : string) (v : value) (s : pystr)
  : option (value * pystr) :=
  match word (lit w) s with
  | Some r => Some (v, r)
  | None => None
  end.

Fixpoint scan_value (fuel : nat) (s : pystr) : option (value * pystr) :=
  match fuel with
  | O => None
  | S fuel' =>
      match s with
      | [] => None
      | c :: r =>
          if N.eqb c 34 then
            match scan_string fuel' [] r with
            | Some (t, r') => Some (Str t, r')
            | None => None
            end
          else if N.eqb c 123 then
            match skip_ws r with
            | c' :: r' =>
                if N.eqb c' 125 then Some (Object [], r')
                else scan_members fuel' [] (c' :: r')
            | [] => None
            end
          else if N.eqb c 91 then
            match skip_ws r with
            | c' :: r' =>
                if N.eqb c' 93 then Some (Array [], r')
                else scan_elements fuel' [] (c' :: r')
            | [] => None
            end
          else if N.eqb c 110 then keyword "null" Null s
          else if N.eqb c 116 then keyword "true" (Bool true) s
          else if N.eqb c 102 then keyword "false" (Bool false) s
          else
            match scan_number s with
            | Some (t, r') => Some (Number t, r')
            | None =>
                if N.eqb c 78 then keyword "NaN" (Number (lit "NaN")) s
                else if N.eqb c 73
                then keyword "Infinity" (Number (lit "Infinity")) s
                else if N.eqb c 45
                then keyword "-Infinity" (Number (lit "-Infinity")) s
                else None
            end
      end
  end

(** The members of an object from a key on; [acc] is the [dict] built so
    far. *)
with scan_members (fuel : nat) (acc : list (pystr * value)) (s : pystr)
  : option (value * pystr) :=
  match fuel with
  | O => None
  | S fuel' =>
      match s with
      | c :: r =>
          if N.eqb c 34 then
            match scan_string fuel' [] r with
            | Some (k, r1) =>
                match skip_ws r1 with
                | c1 :: r2 =>
                    if N.eqb c1 58 then
                      match scan_value fuel' (skip_ws r2) with
                      | Some (v, r3) =>
                          let acc' := dict_set k v acc in
                          match skip_ws r3 with
                          | c3 :: r4 =>
                              if N.eqb c3 125 then Some (Object acc', r4)
                              else if N.eqb c3 44
                              then scan_members fuel' acc' (skip_ws r4)
                              else None
                          | [] => None
                          end
                      | None => None
                      end
                    else None
                | [] => None
                end
            | None => None
            end
          else None
      | [] => None
      end
  end

(** The elements of an array from a value on; [acc] holds the elements read
    so far, reversed. *)
with scan_elements (fuel : nat) (acc : list value) (s : pystr)
  : option (value * pystr) :=
  match fuel with
  | O => None
  | S fuel' =>
      match scan_value fuel' s with
      | Some (v, r) =>
          match skip_ws r with
          | c :: r' =>
              if N.eqb c 93 then Some (Array (rev (v :: acc)), r')
              else if N.eqb c 44
              then scan_elements fuel' (v :: acc) (skip_ws r')
              else None
          | [] => None
          end
      | None => None
      end
  end.

(** [json.loads(s)]; [None] when the decoder raises. *)
Definition loads (s : pystr) : option value :=
  match scan_value (S (List.length s)) (skip_ws s) with
  | Some (v, r) =>
      match skip_ws r with
      | [] => Some v
      | _ :: _ => None
      end
  | None => None
  end.

Definition join (sep : pystr) (parts : list pystr) : pystr :=
  match parts with
  | [] => []
  | p :: ps => p ++ flat_map (fun x => sep ++ x) ps
  end.

Definition quoted (s : pystr) : pystr := lit "'" ++ s ++ lit "'".

(** [repr(v)].  It agrees with the interpreter on [None], the booleans,
    integer literals in canonical form, and on strings, lists and dicts made
    of printable ASCII text without quotes or backslashes. *)
Fixpoint repr (v : value) : pystr :=
  match v with
  | Null => lit "None"
  | Bool true => lit "True"
  | Bool false => lit "False"
  | Number t => t
  | Str s => quoted s
  | Array xs => lit "[" ++ join (lit ", ") (List.map repr xs) ++ lit "]"
  | Object kvs =>
      lit "{" ++
      join (lit ", ")
        (List.map (fun kv => match kv with
                             | (k, x) => quoted k ++ lit ": " ++ repr x
                             end) kvs) ++
      lit "}"
  end.

(** Log lines are written below with ['] for the double quote. *)
Definition js (s : string) : pystr :=
  List.map (fun c => if N.eqb c 39 then 34%N else c) (lit s).

(** A line of the log, with its line end. *)
Definition ln (s : string) : pystr := js s ++ [NL].

End Ref.

(* ------------------------------------------------------------------ *)
(** ** The notions the properties are stated with *)

Module Spec.
Import PyStr Json Eff LogFilter.

(** [extend st ws n]: [st] after the chunks [ws] were written and [n]
    matches counted. *)
Definition extend (st : state) (ws : list pystr) (n : nat) : state :=
  mkState (outfile st ++ ws) (count st + n) (console st).

(** A computation is steady when it only appends to the output and adds to
    the counter, by amounts that do not depend on the state it starts in. *)
Definition steady {A} (m : M A) : Prop :=
  exists ws n r, forall st, m st = (extend st ws n, r).

(** The last [n] elements of a list. *)
Definition lastn {A} (n : nat) (l : list A) : list A :=
  skipn (List.length l - n) l.


(** [Contains p v]: the value [v] contains the string [p], as a run of
    characters of a string, an element of a list or a key of a dict. *)
Definition Contains (p : pystr) (v : value) : Prop :=
  match v with
  | Str s => Substring p s
  | Array xs => In (Str p) xs
  | Object m => exists x, lookup p m = Some x
  | Null | Bool _ | Number _ => False
  end.

(** The chunks at the head of [ws] that the codec accepts. *)
Fixpoint encodable_prefix (ws : list pystr) : list pystr :=
  match ws with
  | [] => []
  | w :: rest => if utf8_ok w then w :: encodable_prefix rest else []
  end.

(** [no_cr s]: the text [s] holds no carriage return. *)
Definition no_cr (s : pystr) : bool :=
  forallb (fun c => negb (N.eqb c 13)) s.

(** The state in which the loop starts. *)
Definition start (printed : list pystr) : state := mkState [] 0 printed.

Section Notions.

Variable json_loads : pystr -> option value.
Variable repr : value -> pystr.

(** The message of an entry: its member [@mt], the empty string when the
    entry has none. *)
Definition message (kvs : list (pystr * value)) : value :=
  match lookup (lit "@mt") kvs with
  | Some m => m
  | None => Str []
  end.

(** [member k kvs] is [entry.get(k)]. *)
Definition member (k : string) (kvs : list (pystr * value)) : value :=
  match lookup (lit k) kvs with
  | Some v => v
  | None => Null
  end.

(** [mentions s v]: the test [s in v] succeeds and holds. *)
Definition mentions (s : pystr) (v : value) : bool :=
  match py_in s v with
  | Ok b => b
  | Raise _ => false
  end.

(** A qualifying line passes the lexical pre-filter, parses as a JSON object
    and has a message that contains [Spotify]. *)
Definition qualifies (line : pystr) : bool :=
  prefilter line &&
  match json_loads line with
  | Some (Object kvs) => mentions (lit "Spotify") (message kvs)
  | _ => false
  end.

(** The record of an entry in the output format: the main line, then the
    lines of the members [Status], [Response] and [@x] that are present. *)
Definition optional_line (k : string) (line_of : value -> pystr)
  (kvs : list (pystr * value)) : list pystr :=
  match lookup (lit k) kvs with
  | Some v => [line_of v]
  | None => []
  end.

Definition head_line (kvs : list (pystr * value)) : pystr :=
  main_line repr (member "@t" kvs) (member "@l" kvs) (message kvs).

Definition exception_part (kvs : list (pystr * value))
  : option (list pystr) :=
  match lookup (lit "@x") kvs with
  | None => Some []
  | Some x =>
      match Json.slice_to 500 x with
      | Ok x500 => Some [exception_line repr x500]
      | Raise _ => None
      end
  end.

(** The lines the script sets out to write for an entry, one after the
    other; the line of [@x] is among them when [@x] can be sliced. *)
Definition intended (kvs : list (pystr * value)) : list pystr :=
  head_line kvs ::
  optional_line "Status" (status_line repr) kvs ++
  optional_line "Response" (response_line repr) kvs ++
  match exception_part kvs with
  | Some ex => ex
  | None => []
  end.

(** [record_of kvs] is the record when it can be written in full: the
    member [@x], if any, can be sliced and every line can be encoded. *)
Definition record_of (kvs : list (pystr * value)) : option (list pystr) :=
  match exception_part kvs with
  | Some ex =>
      let ws :=
        head_line kvs ::
        optional_line "Status" (status_line repr) kvs ++
        optional_line "Response" (response_line repr) kvs ++ ex in
      if forallb utf8_ok ws then Some ws else None
  | None => None
  end.

(** A line whose record can be written in full. *)
Definition writable (line : pystr) : bool :=
  match json_loads line with
  | Some (Object kvs) =>
      match record_of kvs with Some _ => true | None => false end
  | _ => false
  end.

(** The record of a line, empty when it has none. *)
Definition record (line : pystr) : list pystr :=
  match json_loads line with
  | Some (Object kvs) =>
      match record_of kvs with Some ws => ws | None => [] end
  | _ => []
  end.

(** What one run of the loop body writes for a line, and by how much it
    moves the counter. *)
Definition emitted (line : pystr) : list pystr :=
  outfile (body json_loads repr line (start [])).

Definition gain (line : pystr) : nat :=
  count (body json_loads repr line (start [])).

(** A line the loop counts: it qualifies and its record can be written in
    full. *)
Definition counted (line : pystr) : bool :=
  qualifies line && writable line.

End Notions.
End Spec.

(* ------------------------------------------------------------------ *)
(** ** Sample log lines *)

Module Samples.
Import PyStr Json Eff LogFilter Ref.

(** An error about Spotify, as the logger writes it. *)
Definition spotify_error : pystr :=
  ln "{'@t':'2025-12-26T10:00:00Z','@mt':'Spotify auth failed','@l':'Error'}".

(** The same entry with a blank after the colon of the level. *)
Definition spaced_error : pystr :=
  ln "{'@t':'2025-12-26T10:00:00Z','@mt':'Spotify auth failed','@l': 'Error'}".

(** A warning that does not mention Spotify. *)
Definition other_warning : pystr :=
  ln "{'@t':'2025-12-26T10:01:00Z','@mt':'Deezer timeout','@l':'Warning'}".

(** An error line cut short: it passes the pre-filter and is not JSON. *)
Definition torn_error : pystr :=
  ln "{'@t':'2025-12-26T10:02:00Z','@mt':'Spotify auth failed','@l':'Error'".

(** An informational entry that carries an error level in a nested object. *)
Definition nested_level : pystr :=
  ln "{'@t':'2025-12-26T10:03:00Z','@mt':'Spotify sync done','@l':'Information','Props':{'@l':'Error'}}".

(** An error whose [@x] member is a number. *)
Definition numeric_exception : pystr :=
  ln "{'@t':'2025-12-26T10:04:00Z','@mt':'Spotify auth failed','@l':'Error','Status':401,'@x':5}".

(** A warning with the three optional members. *)
Definition spotify_warning : pystr :=
  ln "{'@t':'2025-12-26T10:05:00Z','@mt':'Spotify rate limit','@l':'Warning','Status':429,'Response':'slow down','@x':'RateLimitException: retry later'}".

(** A small log: matching lines at the positions 0, 2 and 4. *)
Definition small_log : list pystr :=
  [spotify_error; other_warning; numeric_exception; torn_error;
   spotify_warning].

(** Thirty-one errors about Spotify. *)
Definition long_log : list pystr := repeat spotify_error 31.

(** The same, followed by the error whose [@x] is a number. *)
Definition long_log_bad_tail : list pystr :=
  long_log ++ [numeric_exception].

(** An error with a stack trace of 512 characters. *)
Definition long_trace : pystr :=
  repeat 97%N 500 ++ lit "<-cut here->".

Definition long_exception : pystr :=
  js "{'@t':'2025-12-26T10:06:00Z','@mt':'Spotify crash','@l':'Error','@x':'"
  ++ long_trace ++ js "'}" ++ [NL].

(** Thirty-one errors whose [@x] is a number. *)
Definition unsliceable_log : list pystr := repeat numeric_exception 31.

(** An error with a [Status] member and no other optional member. *)
Definition status_only : pystr :=
  ln "{'@t':'T','@mt':'Spotify down','@l':'Error','Status':503}".

(** The members of a line that decodes to an object. *)
Definition members (line : pystr) : list (pystr * value) :=
  match Ref.loads line with
  | Some (Object kvs) => kvs
  | _ => []
  end.

(** An entry without [@t] and without a level of its own, which passes the
    pre-filter through a nested object. *)
Definition bare_entry : pystr :=
  ln "{'@mt':'Spotify ping','Props':{'@l':'Warning'}}".

(** An error whose [@x] member is a list of frames. *)
Definition framed_exception : pystr :=
  ln "{'@t':'T','@mt':'Spotify crash','@l':'Error','@x':['a','b']}".

(** A text of three lines, the last one without a line end. *)
Definition three_lines : pystr :=
  lit "first" ++ [NL] ++ lit "second" ++ [NL] ++ lit "third".

(** A world whose log file holds nothing about Spotify, with an output file
    left by an earlier run. *)
Definition quiet_world : world :=
  mkWorld
    (fun p =>
       if String.eqb p log_file
       then Some (Text (List.concat [other_warning; spaced_error]))
       else if String.eqb p out_file then Some (Text (lit "stale"))
       else None)
    (fun _ => false)
    [].

(** A world without the log file. *)
Definition empty_world : world :=
  mkWorld (fun _ => None) (fun _ => false) [].

(** A world whose log file holds the small log, and with an output file left
    by an earlier run. *)
Definition small_world : world :=
  mkWorld
    (fun p =>
       if String.eqb p log_file then Some (Text (List.concat small_log))
       else if String.eqb p out_file then Some (Text (lit "stale"))
       else None)
    (fun _ => false)
    [].



(** A log of thirty-four lines.  Thirty-two of them qualify; the first one
    cannot be written in full, and the last thirty can. *)
Definition mixed_log : list pystr :=
  [numeric_exception; spotify_warning; torn_error] ++
  repeat spotify_error 29 ++ [other_warning; spotify_warning].

End Samples.

(* ------------------------------------------------------------------ *)
(** ** Facts about strings and dictionaries *)

Module PyFacts.
Import PyStr Json.

Lemma eqb_eq s t : eqb s t = true <-> s = t.
Proof.
  revert t; induction s as [|a s IH]; intros [|b t]; simpl;
    try (split; [discriminate | congruence]); try tauto.
  rewrite andb_true_iff, N.eqb_eq, IH. split.
  - intros [-> ->]; reflexivity.
  - intros E; injection E; auto.
Qed.

Lemma startswith_spec p s :
  startswith p s = true <-> exists post, s = p ++ post.
Proof.
  revert s; induction p as [|a p IH]; intros s; simpl.
  - split; [intros _; exists s; reflexivity | reflexivity].
  - destruct s as [|b s].
    + split; [discriminate | intros [post E]; discriminate].
    + rewrite andb_true_iff, N.eqb_eq, IH. split.
      * intros [-> [post ->]]. exists post; reflexivity.
      * intros [post E]. injection E as -> ->. split; [reflexivity|].
        exists post; reflexivity.
Qed.

Lemma contains_spec p s : contains p s = true <-> Substring p s.
Proof.
  unfold Substring. induction s as [|b s IH].
  - simpl. rewrite orb_false_r, startswith_spec. split.
    + intros [post E]. exists [], post. exact E.
    + intros [pre [post E]]. destruct pre; [|discriminate].
      exists post. exact E.
  - cbn [contains]. rewrite orb_true_iff, startswith_spec, IH. split.
    + intros [[post E] | [pre [post E]]].
      * exists [], post. exact E.
      * exists (b :: pre), post. simpl. now rewrite E.
    + intros [pre [post E]]. destruct pre as [|c pre].
      * left. exists post. exact E.
      * right. simpl in E. injection E as _ E. exists pre, post. exact E.
Qed.

Lemma contains_false p s : contains p s = false <-> ~ Substring p s.
Proof.
  rewrite <- contains_spec. destruct (contains p s); split; intros; congruence.
Qed.

Lemma has_key_lookup k kvs :
  has_key k kvs = true <-> exists v, lookup k kvs = Some v.
Proof.
  unfold has_key. destruct (lookup k kvs) as [v|].
  - split; [intros _; exists v; reflexivity | reflexivity].
  - split; [discriminate | intros [v E]; discriminate].
Qed.

Lemma is_str_spec p x : is_str p x = true <-> x = Str p.
Proof.
  destruct x; simpl; try (split; [discriminate | congruence]).
  rewrite eqb_eq. split; congruence.
Qed.

Lemma encodable_prefix_incl ws w :
  In w (Spec.encodable_prefix ws) -> In w ws.
Proof.
  induction ws as [|a ws IH]; simpl; [tauto|].
  destruct (utf8_ok a); simpl; [|tauto]. intros [E | H]; auto.
Qed.

Lemma encodable_prefix_all ws :
  forallb utf8_ok ws = true -> Spec.encodable_prefix ws = ws.
Proof.
  induction ws as [|a ws IH]; simpl; [reflexivity|].
  destruct (utf8_ok a); simpl; [|discriminate].
  intros H. now rewrite IH.
Qed.

Lemma encodable_prefix_ok ws w :
  In w (Spec.encodable_prefix ws) -> utf8_ok w = true.
Proof.
  induction ws as [|a ws IH]; simpl; [tauto|].
  destruct (utf8_ok a) eqn:E; simpl; [|tauto].
  intros [<- | H]; auto.
Qed.

(** The test [p in v] holds exactly when [v] contains [p]. *)
Lemma mentions_spec p v : Spec.mentions p v = true <-> Spec.Contains p v.
Proof.
  unfold Spec.mentions. destruct v; simpl;
    try (split; [discriminate | tauto]).
  - apply contains_spec.
  - rewrite existsb_exists. split.
    + intros (x & Hin & Hx). apply is_str_spec in Hx. now subst x.
    + intros Hin. exists (Str p). split; [exact Hin|].
      now apply is_str_spec.
  - apply has_key_lookup.
Qed.

End PyFacts.

(* ------------------------------------------------------------------ *)
(** ** Reading the lines of a text *)

Module ReadFacts.
Import PyStr LogFilter Spec.

Lemma readlines_from_concat s : forall cur,
  no_cr s = true ->
  List.concat (readlines_from cur s) = rev cur ++ s.
Proof.
  induction s as [|c r IH]; intros cur H.
  - destruct cur; simpl; [reflexivity | now rewrite !app_nil_r].
  - cbn [no_cr forallb] in H. apply andb_true_iff in H.
    destruct H as [Hc Hr]. apply negb_true_iff in Hc.
    cbn [readlines_from]. rewrite Hc.
    destruct (N.eqb c 10) eqn:E.
    + apply N.eqb_eq in E. subst c. cbn [List.concat].
      rewrite (IH [] Hr). cbn [rev app]. now rewrite <- app_assoc.
    + rewrite (IH (c :: cur) Hr). cbn [rev]. now rewrite <- app_assoc.
Qed.

Lemma readlines_from_shape n : forall s cur,
  List.length s <= n ->
  (forall c, In c cur -> c <> 10%N /\ c <> 13%N) ->
  forall l, In l (readlines_from cur s) ->
  exists t c, l = t ++ [c] /\ ~ In NL t /\ ~ In 13%N l.
Proof.
  assert (Hend : forall cur,
            (forall c, In c cur -> c <> 10%N /\ c <> 13%N) ->
            exists t c, rev (NL :: cur) = t ++ [c] /\
                        ~ In NL t /\ ~ In 13%N (rev (NL :: cur))).
  { intros cur Hcur. exists (rev cur), NL. split; [reflexivity|]. split.
    - intros H. apply in_rev in H. now destruct (Hcur _ H).
    - intros H. apply in_rev in H. destruct H as [H | H]; [discriminate|].
      now destruct (Hcur _ H). }
  induction n as [|n IH]; intros s cur Hn Hcur l Hl.
  - destruct s; [|simpl in Hn; lia]. simpl in Hl.
    destruct cur as [|p cur]; [destruct Hl|]. destruct Hl as [<- | []].
    exists (rev cur), p. split; [reflexivity|]. split.
    + intros H. apply in_rev in H. now destruct (Hcur _ (or_intror H)).
    + intros H. apply in_rev in H. now destruct (Hcur _ H).
  - destruct s as [|c r].
    { simpl in Hl. destruct cur as [|p cur]; [destruct Hl|].
      destruct Hl as [<- | []].
      exists (rev cur), p. split; [reflexivity|]. split.
      + intros H. apply in_rev in H. now destruct (Hcur _ (or_intror H)).
      + intros H. apply in_rev in H. now destruct (Hcur _ H). }
    simpl in Hn. cbn [readlines_from] in Hl.
    assert (Hnil : forall c : pychar, In c [] -> c <> 10%N /\ c <> 13%N)
      by (intros ? []).
    destruct (N.eqb c 10) eqn:E10.
    { destruct Hl as [<- | Hl]; [now apply Hend|].
      apply (IH r []); [lia | exact Hnil | exact Hl]. }
    destruct (N.eqb c 13) eqn:E13.
    { destruct r as [|c' r'].
      - destruct Hl as [<- | Hl]; [now apply Hend|]. destruct Hl.
      - destruct (N.eqb c' 10).
        + destruct Hl as [<- | Hl]; [now apply Hend|].
          apply (IH r' []); [simpl in Hn; lia | exact Hnil | exact Hl].
        + destruct Hl as [<- | Hl]; [now apply Hend|].
          apply (IH (c' :: r') []); [lia | exact Hnil | exact Hl]. }
    apply (IH r (c :: cur)); [lia | | exact Hl].
    intros x [<- | Hx]; [|now apply Hcur].
    apply N.eqb_neq in E10, E13. now split.
Qed.

End ReadFacts.

(* ------------------------------------------------------------------ *)
(** ** How the loop body acts on the state *)

Module BodyFacts.
Import PyStr Json Eff LogFilter Spec PyFacts.
Local Open Scope eff_scope.

Lemma extend_nil st : extend st [] 0 = st.
Proof.
  destruct st as [o c p]. unfold extend; simpl.
  now rewrite app_nil_r, Nat.add_0_r.
Qed.

Lemma extend_extend st ws n ws' n' :
  extend (extend st ws n) ws' n' = extend st (ws ++ ws') (n + n').
Proof.
  unfold extend; simpl. now rewrite app_assoc, Nat.add_assoc.
Qed.

Lemma steady_ret A (a : A) : steady (ret a).
Proof. exists [], 0, (Ok a). intros st. unfold ret. now rewrite extend_nil. Qed.

Lemma steady_lift A (r : result A) : steady (lift r).
Proof. exists [], 0, r. intros st. unfold lift. now rewrite extend_nil. Qed.

Lemma steady_write s : steady (write s).
Proof.
  unfold write. destruct (utf8_ok s).
  - exists [s], 0, (Ok tt). intros st. unfold extend.
    now rewrite Nat.add_0_r.
  - exists [], 0, (Raise UnicodeEncodeError). intros st.
    now rewrite extend_nil.
Qed.

Lemma steady_incr : steady incr_count.
Proof.
  exists [], 1, (Ok tt). intros st. unfold incr_count, extend.
  now rewrite app_nil_r, Nat.add_1_r.
Qed.

Lemma steady_bind A B (m : M A) (k : A -> M B) :
  steady m -> (forall a, steady (k a)) -> steady (bind m k).
Proof.
  intros (ws & n & r & Hm) Hk. destruct r as [a|e].
  - destruct (Hk a) as (ws' & n' & r' & Hka).
    exists (ws ++ ws'), (n + n'), r'. intros st.
    unfold bind. now rewrite Hm, Hka, extend_extend.
  - exists ws, n, (Raise e). intros st. unfold bind. now rewrite Hm.
Qed.

Lemma steady_if A (b : bool) (m1 m2 : M A) :
  steady m1 -> steady m2 -> steady (if b then m1 else m2).
Proof. now destruct b. Qed.

Create HintDb steady.
#[export] Hint Resolve steady_ret steady_lift steady_write steady_incr
  steady_if : steady.
#[export] Hint Extern 2 (steady (bind _ _)) =>
  (apply steady_bind; [ | intro ]) : steady.

Section Body.

Variable json_loads : pystr -> option value.
Variable repr : value -> pystr.

Local Abbreviation body := (LogFilter.body json_loads repr).
Local Abbreviation try_block := (LogFilter.try_block json_loads repr).
Local Abbreviation emitted := (Spec.emitted json_loads repr).
Local Abbreviation gain := (Spec.gain json_loads repr).
Local Abbreviation qualifies := (Spec.qualifies json_loads).
Local Abbreviation record_of := (Spec.record_of repr).
Local Abbreviation head_line := (Spec.head_line repr).
Local Abbreviation intended := (Spec.intended repr).
Local Abbreviation writable := (Spec.writable json_loads repr).

Lemma try_block_steady line : steady (try_block line).
Proof. unfold LogFilter.try_block. auto 30 with steady. Qed.

(** The body appends what it emits and adds what it gains, whatever the
    state. *)
Lemma body_frame line st :
  body line st = extend st (emitted line) (gain line).
Proof.
  unfold Spec.emitted, Spec.gain, LogFilter.body.
  destruct (prefilter line).
  - destruct (try_block_steady line) as (ws & n & r & H).
    unfold try_except_pass. rewrite !H. reflexivity.
  - simpl. now rewrite extend_nil.
Qed.

(** A line that fails the pre-filter is not looked at. *)
Lemma body_skip_prefilter line st :
  prefilter line = false -> body line st = st.
Proof. intros H. unfold LogFilter.body. now rewrite H. Qed.

(** A line the decoder refuses leaves no trace. *)
Lemma body_skip_undecoded line st :
  json_loads line = None -> body line st = st.
Proof.
  intros H. unfold LogFilter.body. destruct (prefilter line); [|reflexivity].
  unfold try_except_pass, LogFilter.try_block, loads, bind, lift.
  now rewrite H.
Qed.

(** A JSON value that is not an object has no [get]. *)
Lemma body_skip_nonobject line v st :
  json_loads line = Some v ->
  (forall kvs, v <> Object kvs) ->
  body line st = st.
Proof.
  intros H Hv. unfold LogFilter.body.
  destruct (prefilter line); [|reflexivity].
  unfold try_except_pass, LogFilter.try_block, loads, bind, lift.
  rewrite H. destruct v; try reflexivity. now elim (Hv kvs).
Qed.

(** An object whose message does not mention [Spotify], or cannot be
    searched, leaves no trace. *)
Lemma body_skip_message line kvs st :
  json_loads line = Some (Object kvs) ->
  mentions (lit "Spotify") (message kvs) = false ->
  body line st = st.
Proof.
  intros H Hm. unfold LogFilter.body.
  destruct (prefilter line); [|reflexivity].
  unfold try_except_pass, LogFilter.try_block, loads, bind, lift, get.
  rewrite H. unfold mentions, message in Hm.
  destruct (py_in (lit "Spotify") _) as [b|e]; [|reflexivity].
  now subst b.
Qed.

Lemma body_unqualified line st :
  qualifies line = false -> body line st = st.
Proof.
  unfold Spec.qualifies. intros H.
  destruct (prefilter line) eqn:Hp; [|now apply body_skip_prefilter].
  simpl in H. destruct (json_loads line) as [v|] eqn:Hj;
    [|now apply body_skip_undecoded].
  destruct v; try (apply body_skip_nonobject with (1 := Hj); discriminate).
  now apply body_skip_message with (1 := Hj).
Qed.

Lemma qualifies_inv line :
  qualifies line = true ->
  prefilter line = true /\
  exists kvs, json_loads line = Some (Object kvs) /\
              mentions (lit "Spotify") (message kvs) = true.
Proof.
  unfold Spec.qualifies. rewrite andb_true_iff. intros [Hp H].
  split; [exact Hp|].
  destruct (json_loads line) as [[| | | | |kvs]|]; try discriminate.
  exists kvs. auto.
Qed.

(** A qualifying entry whose record can be written in full: the record is
    appended and the match is counted. *)
Lemma body_record line kvs ws st :
  prefilter line = true ->
  json_loads line = Some (Object kvs) ->
  mentions (lit "Spotify") (message kvs) = true ->
  record_of kvs = Some ws ->
  body line st = extend st ws 1.
Proof.
  intros Hp Hj Hm Hr.
  unfold LogFilter.body. rewrite Hp.
  unfold try_except_pass, LogFilter.try_block, loads. rewrite Hj.
  unfold mentions, message in Hm.
  unfold Spec.record_of, Spec.exception_part, Spec.head_line,
    Spec.optional_line, member, message in Hr.
  unfold bind, lift, get, ret, py_in at 2 3 4, getitem, has_key.
  destruct (py_in (lit "Spotify") _) as [b|e] eqn:Ein; [|discriminate].
  subst b.
  destruct (lookup (lit "Status") kvs) as [s|];
  destruct (lookup (lit "Response") kvs) as [r|];
  (destruct (lookup (lit "@x") kvs) as [x|];
   [destruct (Json.slice_to 500 x) as [x5|e]; [|discriminate]|]);
  cbn [forallb app] in Hr; unfold write;
  repeat match type of Hr with context [utf8_ok ?t] =>
    destruct (utf8_ok t); cbn [andb] in Hr; try discriminate end;
  injection Hr as <-; unfold extend; cbn;
  rewrite <- ?app_assoc, ?Nat.add_1_r; reflexivity.
Qed.

(** A qualifying entry in general: the intended lines are written up to the
    first one the codec refuses, and the match is counted when the whole
    record went through. *)
Lemma body_qualified line kvs st :
  prefilter line = true ->
  json_loads line = Some (Object kvs) ->
  mentions (lit "Spotify") (message kvs) = true ->
  body line st =
  extend st (encodable_prefix (intended kvs))
    (match record_of kvs with Some _ => 1 | None => 0 end).
Proof.
  intros Hp Hj Hm.
  unfold LogFilter.body. rewrite Hp.
  unfold try_except_pass, LogFilter.try_block, loads. rewrite Hj.
  unfold mentions, message in Hm.
  unfold Spec.intended, Spec.record_of, Spec.exception_part, Spec.head_line,
    Spec.optional_line, member, message.
  unfold bind, lift, get, ret, py_in at 2 3 4, getitem, has_key.
  destruct (py_in (lit "Spotify") _) as [b|e] eqn:Ein; [|discriminate].
  subst b.
  destruct (lookup (lit "Status") kvs) as [s|];
  destruct (lookup (lit "Response") kvs) as [r|];
  (destruct (lookup (lit "@x") kvs) as [x|];
   [destruct (Json.slice_to 500 x) as [x5|e]|]);
  cbn [forallb app encodable_prefix]; unfold write;
  repeat match goal with |- context [utf8_ok ?t] =>
    destruct (utf8_ok t) eqn:?; cbn [andb encodable_prefix fst] end;
  unfold extend; cbn [outfile count console fst];
  rewrite <- ?app_assoc, ?Nat.add_1_r, ?Nat.add_0_r, ?app_nil_r;
  try reflexivity; destruct st; reflexivity.
Qed.

(** What a line emits and gains, by its kind. *)
Lemma emitted_unqualified line :
  qualifies line = false -> emitted line = [].
Proof.
  intros H. unfold Spec.emitted. now rewrite body_unqualified.
Qed.

Lemma gain_unqualified line :
  qualifies line = false -> gain line = 0.
Proof.
  intros H. unfold Spec.gain. now rewrite body_unqualified.
Qed.

Lemma emitted_record line kvs ws :
  qualifies line = true ->
  json_loads line = Some (Object kvs) ->
  record_of kvs = Some ws ->
  emitted line = ws /\ gain line = 1.
Proof.
  intros Hq Hj Hr. destruct (qualifies_inv line Hq) as (Hp & kvs' & Hj' & Hm).
  rewrite Hj in Hj'. injection Hj' as <-.
  unfold Spec.emitted, Spec.gain.
  rewrite (body_record line kvs ws _ Hp Hj Hm Hr). split; reflexivity.
Qed.

Lemma gain_spec line :
  gain line = if qualifies line && writable line then 1 else 0.
Proof.
  destruct (qualifies line) eqn:Hq; [|now apply gain_unqualified].
  destruct (qualifies_inv line Hq) as (Hp & kvs & Hj & Hm).
  unfold Spec.writable. rewrite Hj. simpl.
  destruct (record_of kvs) as [ws|] eqn:Hr.
  - now destruct (emitted_record line kvs ws Hq Hj Hr).
  - unfold Spec.gain. rewrite (body_qualified line kvs _ Hp Hj Hm).
    now rewrite Hr.
Qed.

Lemma gain_le_1 line : gain line <= 1.
Proof. rewrite gain_spec. destruct (_ && _); lia. Qed.

Lemma gain_qualifies line : gain line <= if qualifies line then 1 else 0.
Proof.
  rewrite gain_spec. destruct (qualifies line), (writable line); simpl; lia.
Qed.

Lemma record_of_intended kvs ws :
  record_of kvs = Some ws ->
  ws = intended kvs /\ forallb utf8_ok ws = true.
Proof.
  unfold Spec.record_of, Spec.intended.
  destruct (exception_part repr kvs) as [ex|]; [|discriminate].
  destruct (forallb utf8_ok _) eqn:E; [|discriminate].
  intros H. injection H as <-. split; [reflexivity | exact E].
Qed.

Lemma emitted_qualified line kvs :
  qualifies line = true ->
  json_loads line = Some (Object kvs) ->
  emitted line = encodable_prefix (intended kvs).
Proof.
  intros Hq Hj. destruct (qualifies_inv line Hq) as (Hp & kvs' & Hj' & Hm).
  rewrite Hj in Hj'. injection Hj' as <-.
  unfold Spec.emitted. now rewrite (body_qualified line kvs _ Hp Hj Hm).
Qed.

Lemma emitted_writable line :
  qualifies line = true -> writable line = true ->
  emitted line = Spec.record json_loads repr line /\ gain line = 1.
Proof.
  intros Hq Hw. destruct (qualifies_inv line Hq) as (Hp & kvs & Hj & Hm).
  unfold Spec.writable, Spec.record in *. rewrite Hj in *.
  destruct (record_of kvs) as [ws|] eqn:Hr; [|discriminate].
  exact (emitted_record line kvs ws Hq Hj Hr).
Qed.

(** Only the line of [@x] begins with the word [Exception]. *)
Lemma head_line_not_exception kvs :
  startswith (lit "   Exception: ") (head_line kvs) = false.
Proof. reflexivity. Qed.

Lemma status_line_not_exception v :
  startswith (lit "   Exception: ") (status_line repr v) = false.
Proof. reflexivity. Qed.

Lemma response_line_not_exception v :
  startswith (lit "   Exception: ") (response_line repr v) = false.
Proof. reflexivity. Qed.

Lemma intended_exception_chunk kvs w :
  In w (intended kvs) ->
  startswith (lit "   Exception: ") w = true ->
  exists x x500,
    lookup (lit "@x") kvs = Some x /\ Json.slice_to 500 x = Ok x500 /\
    w = exception_line repr x500.
Proof.
  unfold Spec.intended, Spec.optional_line, Spec.exception_part.
  intros Hin Hw. destruct Hin as [<- | Hin].
  { now rewrite head_line_not_exception in Hw. }
  apply in_app_or in Hin. destruct Hin as [Hin | Hin].
  { destruct (lookup (lit "Status") kvs); [|destruct Hin].
    destruct Hin as [<- | []]. now rewrite status_line_not_exception in Hw. }
  apply in_app_or in Hin. destruct Hin as [Hin | Hin].
  { destruct (lookup (lit "Response") kvs); [|destruct Hin].
    destruct Hin as [<- | []]. now rewrite response_line_not_exception in Hw. }
  destruct (lookup (lit "@x") kvs) as [x|]; [|destruct Hin].
  destruct (Json.slice_to 500 x) as [x500|e] eqn:E; [|destruct Hin].
  destruct Hin as [<- | []]. exists x, x500. auto.
Qed.

(** The line of [@x] in what a qualifying line emits: a chunk that begins
    with the word [Exception] is that line, and when the record is written
    in full it is its last chunk. *)
Lemma exception_chunk line kvs x :
  qualifies line = true ->
  json_loads line = Some (Object kvs) ->
  lookup (lit "@x") kvs = Some x ->
  (forall w, In w (emitted line) ->
     startswith (lit "   Exception: ") w = true ->
     exists x500, Json.slice_to 500 x = Ok x500 /\
                  w = exception_line repr x500) /\
  (writable line = true ->
   exists x500 before,
     Json.slice_to 500 x = Ok x500 /\
     emitted line = before ++ [exception_line repr x500] /\ gain line = 1).
Proof.
  intros Hq Hj Hx. split.
  - intros w Hin Hw. rewrite (emitted_qualified line kvs Hq Hj) in Hin.
    apply encodable_prefix_incl in Hin.
    destruct (intended_exception_chunk kvs w Hin Hw) as (x' & x500 & E & Hs & ->).
    rewrite Hx in E. injection E as <-. exists x500. auto.
  - intros Hw. unfold Spec.writable in Hw. rewrite Hj in Hw.
    destruct (record_of kvs) as [ws|] eqn:Hr; [|discriminate].
    destruct (emitted_record line kvs ws Hq Hj Hr) as [He Hg].
    destruct (record_of_intended kvs ws Hr) as [-> _].
    unfold Spec.record_of, Spec.exception_part in Hr. rewrite Hx in Hr.
    destruct (Json.slice_to 500 x) as [x500|e] eqn:Hs; [|discriminate].
    exists x500.
    exists (head_line kvs ::
            optional_line "Status" (status_line repr) kvs ++
            optional_line "Response" (response_line repr) kvs).
    split; [reflexivity|]. split; [|exact Hg].
    rewrite He. unfold Spec.intended, Spec.exception_part. rewrite Hx, Hs.
    simpl. now rewrite <- app_assoc.
Qed.

Lemma gain_counted line :
  gain line = if Spec.counted json_loads repr line then 1 else 0.
Proof. unfold Spec.counted. apply gain_spec. Qed.

(** Every line of a record ends with a line feed. *)
Lemma intended_ends_nl kvs w :
  In w (intended kvs) -> exists t, w = t ++ [NL].
Proof.
  unfold Spec.intended, Spec.optional_line, Spec.exception_part,
    Spec.head_line, main_line, status_line, response_line, exception_line.
  intros Hin. destruct Hin as [<- | Hin].
  { eexists. rewrite !app_assoc. reflexivity. }
  apply in_app_or in Hin. destruct Hin as [Hin | Hin].
  { destruct (lookup (lit "Status") kvs); [|destruct Hin].
    destruct Hin as [<- | []]. eexists. rewrite !app_assoc. reflexivity. }
  apply in_app_or in Hin. destruct Hin as [Hin | Hin].
  { destruct (lookup (lit "Response") kvs); [|destruct Hin].
    destruct Hin as [<- | []]. eexists. rewrite !app_assoc. reflexivity. }
  destruct (lookup (lit "@x") kvs) as [x|]; [|destruct Hin].
  destruct (Json.slice_to 500 x) as [x500|e]; [|destruct Hin].
  destruct Hin as [<- | []]. eexists. rewrite !app_assoc. reflexivity.
Qed.

End Body.
End BodyFacts.

(* ------------------------------------------------------------------ *)
(** ** The reverse scan *)

Module ScanFacts.
Import PyStr Json Eff LogFilter Spec PyFacts BodyFacts.

Lemma lastn_app_exact A (n : nat) (l1 l2 : list A) :
  List.length l2 = n -> lastn n (l1 ++ l2) = l2.
Proof.
  intros H. unfold lastn. rewrite length_app, H.
  replace (List.length l1 + n - n) with (List.length l1 + 0) by lia.
  rewrite skipn_app, Nat.add_0_r, skipn_all.
  now replace (List.length l1 - List.length l1) with 0 by lia.
Qed.





(** A list with at least [n] elements kept by [f], [n] positive, splits
    before the [n]-th of them counted from the end. *)
Lemma split_before_last A (f : A -> bool) (n : nat) (l : list A) :
  0 < n -> n <= List.length (filter f l) ->
  exists pre first rest,
    l = pre ++ first :: rest /\ f first = true /\
    List.length (filter f (first :: rest)) = n.
Proof.
  intros Hn. induction l as [|a l IH]; intros Hle; [simpl in Hle; lia|].
  destruct (Nat.le_gt_cases n (List.length (filter f l))) as [H | H].
  - destruct (IH H) as (pre & first & rest & -> & Hf & Hlen).
    exists (a :: pre), first, rest. auto.
  - exists [], a, l. simpl in *.
    destruct (f a) eqn:E; simpl in *; [|lia].
    split; [reflexivity|]. split; [reflexivity | lia].
Qed.

Section Scan.

Variable json_loads : pystr -> option value.
Variable repr : value -> pystr.

Local Abbreviation body := (LogFilter.body json_loads repr).
Local Abbreviation scan := (LogFilter.scan json_loads repr).
Local Abbreviation filter_lines := (LogFilter.filter_lines json_loads repr).
Local Abbreviation emitted := (Spec.emitted json_loads repr).
Local Abbreviation gain := (Spec.gain json_loads repr).
Local Abbreviation qualifies := (Spec.qualifies json_loads).
Local Abbreviation writable := (Spec.writable json_loads repr).

Local Abbreviation gains ls := (list_sum (List.map gain ls)).

(** The loop runs the body on a prefix [ex] of the lines it is given and
    leaves the rest alone; it stops short only with a full counter, and then
    right after a line that was counted. *)
Lemma scan_split ls : forall st,
  count st <= cap ->
  exists ex rest,
    ls = ex ++ rest /\
    scan ls st = (extend st (flat_map emitted ex) (gains ex), rest) /\
    count st + gains ex <= cap /\
    (rest = [] \/ count st + gains ex = cap) /\
    (cap <= count st -> ex = []) /\
    (count st < cap -> count st + gains ex = cap ->
     exists ex0 l, ex = ex0 ++ [l] /\ gain l = 1).
Proof.
  induction ls as [|l r IH]; intros st Hc.
  - exists [], []. simpl. rewrite extend_nil.
    repeat split; auto; try lia.
  - cbn [LogFilter.scan]. destruct (cap <=? count st) eqn:E.
    + apply Nat.leb_le in E. exists [], (l :: r). simpl.
      rewrite extend_nil. repeat split; auto; try lia.
    + apply Nat.leb_gt in E. rewrite body_frame.
      pose proof (gain_le_1 json_loads repr l) as Hg.
      destruct (IH (extend st (emitted l) (gain l))) as
        (ex & rest & -> & Hs & Hle & Hstop & Hfull & Hlast);
        [simpl; lia|].
      exists (l :: ex), rest. simpl in *.
      rewrite Hs, extend_extend.
      repeat split; auto; try lia.
      * destruct Hstop as [-> | Hstop]; [now left | right; lia].
      * intros _ Hsum.
        destruct (Nat.eq_dec (count st + gain l) cap) as [Hcap | Hcap].
        -- rewrite Hfull by lia. exists [], l. split; [reflexivity | lia].
        -- destruct Hlast as (ex0 & l' & -> & Hl'); try lia.
           exists (l :: ex0), l'. split; [reflexivity | exact Hl'].
Qed.

Lemma flat_map_emitted_filter ls :
  flat_map emitted ls = flat_map emitted (filter qualifies ls).
Proof.
  induction ls as [|l r IH]; simpl; [reflexivity|].
  destruct (qualifies l) eqn:E; simpl; rewrite IH; [reflexivity|].
  now rewrite (emitted_unqualified json_loads repr l E).
Qed.


(** When every qualifying line can be written, the gains count the
    qualifying lines. *)
Lemma gains_writable ls :
  (forall l, In l ls -> qualifies l = true -> writable l = true) ->
  gains ls = List.length (filter qualifies ls).
Proof.
  induction ls as [|l r IH]; intros H; simpl; [reflexivity|].
  rewrite IH by (intros x Hx; apply H; now right).
  rewrite gain_spec. destruct (qualifies l) eqn:E; simpl; [|reflexivity].
  rewrite (H l (or_introl eq_refl) E). reflexivity.
Qed.

Lemma gains_counted ls :
  gains ls = List.length (filter (Spec.counted json_loads repr) ls).
Proof.
  induction ls as [|l r IH]; simpl; [reflexivity|].
  rewrite IH, gain_counted.
  destruct (Spec.counted json_loads repr l); reflexivity.
Qed.

(** Once the lines of [l1] fill the counter, what comes after them is not
    looked at. *)
Lemma scan_full_prefix l1 : forall l2 st,
  count st <= cap ->
  cap <= count st + gains l1 ->
  fst (scan (l1 ++ l2) st) = fst (scan l1 st).
Proof.
  induction l1 as [|l r IH]; intros l2 st Hc Hfull.
  - simpl in Hfull. rewrite Nat.add_0_r in Hfull.
    apply Nat.leb_le in Hfull.
    destruct l2; cbn [LogFilter.scan app]; [reflexivity | now rewrite Hfull].
  - cbn [LogFilter.scan app]. destruct (cap <=? count st) eqn:E;
      [reflexivity|].
    apply Nat.leb_gt in E. pose proof (gain_le_1 json_loads repr l) as Hg.
    rewrite body_frame. apply IH.
    + cbn [count extend]. lia.
    + cbn [count extend]. simpl in Hfull. lia.
Qed.

(** The lines that do not qualify can be taken out of the log. *)
Lemma scan_filter ls : forall st,
  fst (scan ls st) = fst (scan (filter qualifies ls) st).
Proof.
  induction ls as [|l r IH]; intros st; [reflexivity|].
  cbn [LogFilter.scan filter]. destruct (qualifies l) eqn:Hq.
  - cbn [LogFilter.scan]. destruct (cap <=? count st); [reflexivity|].
    apply IH.
  - rewrite (body_unqualified json_loads repr l st Hq).
    destruct (cap <=? count st) eqn:E; [|apply IH].
    destruct (filter qualifies r); cbn [LogFilter.scan];
      [reflexivity | now rewrite E].
Qed.

(** What is written and counted does not depend on what was printed. *)
Lemma scan_console_irrelevant ls : forall st st',
  outfile st = outfile st' ->
  count st = count st' ->
  outfile (fst (scan ls st)) = outfile (fst (scan ls st')) /\
  count (fst (scan ls st)) = count (fst (scan ls st')).
Proof.
  induction ls as [|l r IH]; intros st st' Ho Hc; [split; assumption|].
  cbn [LogFilter.scan]. rewrite Hc.
  destruct (cap <=? count st'); [split; assumption|].
  apply IH; rewrite !body_frame; unfold extend; cbn [outfile count];
    congruence.
Qed.

(** When the lines [ex0 ++ [l]] fill the counter exactly and [l] is
    counted, the loop runs the body on them and stops: the lines after [l]
    are handed back untouched. *)
Lemma scan_stops_after ex0 l rest : forall st,
  gain l = 1 ->
  count st + gains (ex0 ++ [l]) = cap ->
  scan ((ex0 ++ [l]) ++ rest) st =
  (extend st (flat_map emitted (ex0 ++ [l])) (gains (ex0 ++ [l])), rest).
Proof.
  induction ex0 as [|a ex0 IH]; intros st Hl Hsum.
  - cbn [app LogFilter.scan]. simpl in Hsum. rewrite Hl in Hsum.
    assert (E : (cap <=? count st) = false) by (apply Nat.leb_gt; lia).
    rewrite E, body_frame. simpl. rewrite app_nil_r, Nat.add_0_r.
    assert (E' : (cap <=? count (extend st (emitted l) (gain l))) = true)
      by (apply Nat.leb_le; cbn [count extend]; lia).
    destruct rest; cbn [LogFilter.scan]; [reflexivity | now rewrite E'].
  - cbn [app LogFilter.scan].
    assert (Hpos : 1 <= gains (ex0 ++ [l])).
    { rewrite map_app, list_sum_app. simpl. lia. }
    simpl in Hsum.
    assert (E : (cap <=? count st) = false) by (apply Nat.leb_gt; lia).
    rewrite E, body_frame, IH; [|exact Hl | cbn [count extend]; lia].
    rewrite extend_extend. reflexivity.
Qed.

(** With room left in the counter for every qualifying line, the loop runs
    the body on every line: the final state is the first one extended by
    what all the lines emit and gain. *)
Lemma scan_all_state ls : forall st,
  count st + List.length (filter qualifies ls) <= cap ->
  fst (scan ls st) = extend st (flat_map emitted ls) (gains ls).
Proof.
  induction ls as [|l r IH]; intros st Hc.
  - simpl. now rewrite extend_nil.
  - pose proof (gain_qualifies json_loads repr l) as Hg.
    cbn [LogFilter.scan]. destruct (cap <=? count st) eqn:E.
    + apply Nat.leb_le in E.
      assert (H0 : List.length (filter qualifies (l :: r)) = 0) by lia.
      cbn [fst]. rewrite <- (extend_nil st) at 1. f_equal.
      * rewrite flat_map_emitted_filter.
        destruct (filter qualifies (l :: r)); [reflexivity | discriminate].
      * clear IH Hg E Hc. induction (l :: r) as [|a t IHt]; [reflexivity|].
        pose proof (gain_qualifies json_loads repr a) as Ha.
        simpl in *. destruct (qualifies a); [discriminate|].
        rewrite <- IHt by exact H0. lia.
    + rewrite body_frame, IH.
      * rewrite extend_extend. reflexivity.
      * cbn [count extend]. simpl in Hc.
        destruct (qualifies l); simpl in *; lia.
Qed.

End Scan.
End ScanFacts.

(* ------------------------------------------------------------------ *)
(** ** Properties of the script *)

Module Properties.
Import PyStr Json Eff LogFilter Spec PyFacts ReadFacts BodyFacts ScanFacts.

Section Script.

Variable json_loads : pystr -> option value.
Variable repr : value -> pystr.

Local Abbreviation body := (LogFilter.body json_loads repr).
Local Abbreviation scan := (LogFilter.scan json_loads repr).
Local Abbreviation filter_lines := (LogFilter.filter_lines json_loads repr).
Local Abbreviation program := (LogFilter.program json_loads repr).
Local Abbreviation emitted := (Spec.emitted json_loads repr).
Local Abbreviation gain := (Spec.gain json_loads repr).
Local Abbreviation qualifies := (Spec.qualifies json_loads).
Local Abbreviation writable := (Spec.writable json_loads repr).
Local Abbreviation record := (Spec.record json_loads repr).
Local Abbreviation head_line := (Spec.head_line repr).
Local Abbreviation intended := (Spec.intended repr).
Local Abbreviation gains_of ls := (list_sum (List.map gain ls)).
Local Abbreviation counted := (Spec.counted json_loads repr).

(** A line on which the body does nothing can be taken out of the file. *)
Lemma scan_drop line (Hid : forall st, body line st = st) l1 : forall l2 st,
  fst (scan (l1 ++ line :: l2) st) = fst (scan (l1 ++ l2) st).
Proof.
  induction l1 as [|a l1 IH]; intros l2 st; cbn [LogFilter.scan app].
  - destruct (cap <=? count st) eqn:E.
    + destruct l2; cbn [LogFilter.scan]; [reflexivity | now rewrite E].
    + now rewrite Hid.
  - destruct (cap <=? count st); [reflexivity | apply IH].
Qed.

(** C4: when the log file does not exist the program prints
    [Log file not found], exits at once, and leaves every file as it was: no
    output file is created or changed. *)
Theorem missing_log_file (w : world) :
  files w log_file = None ->
  program w =
  (Exited,
   mkWorld (files w) (sealed w)
     (stdout w ++ [lit "Log file not found" ++ [NL]])).
Proof.
  intros H. unfold LogFilter.program. now rewrite H.
Qed.

(** C5: a line that passes the pre-filter and is not valid JSON is dropped
    in silence: the body leaves the output, the counter and the console as
    they were, the loop goes on with the next line, and the run ends in the
    state it would reach without the line.  The lines around it are
    processed: the line visited next has what it emits appended and its
    match counted, and when no more than thirty lines of the file qualify
    the run ends with what every other line emits, the last line of the
    file first, and with the number of those that were written in full. *)
Theorem malformed_line_dropped (line : pystr) :
  prefilter line = true ->
  json_loads line = None ->
  (forall st, body line st = st) /\
  (forall rest st, count st < cap -> scan (line :: rest) st = scan rest st) /\
  (forall before after printed,
     fst (filter_lines (before ++ line :: after) printed) =
     fst (filter_lines (before ++ after) printed)) /\
  (forall next st, count st < cap ->
     fst (scan [line; next] st) = extend st (emitted next) (gain next)) /\
  (forall before after printed,
     List.length (filter qualifies (before ++ after)) <= cap ->
     fst (filter_lines (before ++ line :: after) printed) =
     mkState
       (List.concat (List.map emitted (rev (before ++ after))))
       (List.length (filter counted (before ++ after)))
       printed).
Proof.
  intros _ Hj.
  assert (Hid : forall st, body line st = st)
    by (intros st; now apply body_skip_undecoded).
  assert (Hdrop : forall before after printed,
     fst (filter_lines (before ++ line :: after) printed) =
     fst (filter_lines (before ++ after) printed)).
  { intros before after printed. unfold LogFilter.filter_lines.
    rewrite !rev_app_distr. simpl. rewrite <- app_assoc. simpl.
    now apply scan_drop. }
  split; [exact Hid | split; [|split; [exact Hdrop | split]]].
  - intros rest st Hc. cbn [LogFilter.scan].
    apply Nat.leb_gt in Hc. now rewrite Hc, Hid.
  - intros next st Hc. cbn [LogFilter.scan].
    apply Nat.leb_gt in Hc. rewrite Hc, Hid, Hc. cbn [fst].
    apply body_frame.
  - intros before after printed Hcap. rewrite Hdrop.
    unfold LogFilter.filter_lines.
    change (mkState [] 0 printed) with (start printed).
    rewrite scan_all_state.
    + rewrite gains_counted, filter_rev, length_rev, flat_map_concat_map.
      reflexivity.
    + cbn [count start]. now rewrite filter_rev, length_rev.
Qed.

(** C6: a line that passes the pre-filter and is valid JSON, and whose
    message (the member [@mt], the empty string when absent) does not
    contain [Spotify], produces no record and is not counted. *)
Theorem no_spotify_no_record (line : pystr) (v : value) (st : state) :
  prefilter line = true ->
  json_loads line = Some v ->
  (forall kvs, v = Object kvs -> ~ Contains (lit "Spotify") (message kvs)) ->
  body line st = st /\ emitted line = [] /\ gain line = 0.
Proof.
  intros _ Hj Hm.
  assert (Hq : qualifies line = false).
  { unfold Spec.qualifies. rewrite Hj. destruct v; try apply andb_false_r.
    destruct (mentions (lit "Spotify") (message kvs)) eqn:E;
      [|apply andb_false_r].
    apply mentions_spec in E. now elim (Hm kvs). }
  split; [now apply body_unqualified | split].
  - now apply emitted_unqualified.
  - now apply gain_unqualified.
Qed.

(** C7: a line is looked at only if its raw text contains the member [@l]
    with value [Error] or [Warning] written without a blank; any other line,
    one that spells the level with a blank after the colon included, is
    left out whatever it parses to. *)
Theorem prefilter_is_lexical (line : pystr) (st : state) :
  ~ Substring (level_tag "Error") line ->
  ~ Substring (level_tag "Warning") line ->
  body line st = st /\ emitted line = [] /\ gain line = 0.
Proof.
  intros He Hw.
  assert (Hp : prefilter line = false).
  { unfold prefilter. apply contains_false in He, Hw. now rewrite He, Hw. }
  assert (Hq : qualifies line = false)
    by (unfold Spec.qualifies; now rewrite Hp).
  split; [now apply body_skip_prefilter | split].
  - now apply emitted_unqualified.
  - now apply gain_unqualified.
Qed.


(** C1, amended: when more than thirty lines qualify and the thirty
    qualifying lines closest to the end of the file have records that can be
    written in full, the scan stops at the thirtieth qualifying line from
    the end ([first]): the lines before it are never looked at, the counter
    ends at thirty, and the output holds exactly the records of those thirty
    lines, the last line first. *)
Theorem cap_keeps_last_thirty (lines : list pystr) (printed : list pystr) :
  (forall line, In line (lastn cap (filter qualifies lines)) ->
     writable line = true) ->
  cap < List.length (filter qualifies lines) ->
  exists pre first rest,
    lines = pre ++ first :: rest /\
    qualifies first = true /\
    filter qualifies (first :: rest) = lastn cap (filter qualifies lines) /\
    List.length (lastn cap (filter qualifies lines)) = cap /\
    filter_lines lines printed =
      (mkState
         (List.concat
            (List.map record (rev (lastn cap (filter qualifies lines)))))
         cap printed,
       rev pre) /\
    (forall l, In l (lastn cap (filter qualifies lines)) ->
       exists kvs, json_loads l = Some (Object kvs) /\
                   record l = intended kvs).
Proof.
  intros Hw Hmany.
  destruct (split_before_last pystr qualifies cap lines)
    as (pre & first & rest & Hlines & Hqf & Hlen);
    [unfold cap; lia | lia |].
  assert (Hchosen : filter qualifies (first :: rest) =
                    lastn cap (filter qualifies lines)).
  { rewrite Hlines, filter_app. symmetry. now apply lastn_app_exact. }
  assert (Hws : forall x, In x (first :: rest) -> qualifies x = true ->
                          writable x = true).
  { intros x Hx Hqx. apply Hw. rewrite <- Hchosen. apply filter_In. auto. }
  assert (Hgain : forall x, In x (first :: rest) ->
                            gain x = if qualifies x then 1 else 0).
  { intros x Hx. rewrite gain_spec. destruct (qualifies x) eqn:E;
      [|reflexivity]. now rewrite (Hws x Hx E). }
  assert (Hsum : forall ls, (forall x, In x ls -> In x (first :: rest)) ->
                   gains_of ls = List.length (filter qualifies ls)).
  { induction ls as [|a ls IH]; intros Hin; [reflexivity|].
    simpl. rewrite IH by (intros x Hx; apply Hin; now right).
    rewrite (Hgain a (Hin a (or_introl eq_refl))).
    destruct (qualifies a); reflexivity. }
  exists pre, first, rest.
  split; [exact Hlines|]. split; [exact Hqf|]. split; [exact Hchosen|].
  split; [now rewrite <- Hchosen|]. split.
  - rewrite <- Hchosen. unfold LogFilter.filter_lines.
    change (mkState [] 0 printed) with (start printed).
    rewrite Hlines, rev_app_distr. cbn [rev].
    rewrite scan_stops_after.
    + assert (Hg : gains_of (rev rest ++ [first]) = cap).
      { rewrite Hsum.
        - change (rev rest ++ [first]) with (rev (first :: rest)).
          now rewrite filter_rev, length_rev.
        - intros x Hx. apply in_rev. exact Hx. }
      rewrite Hg. unfold extend, start. cbn [outfile count console app].
      f_equal. f_equal.
      change (rev rest ++ [first]) with (rev (first :: rest)).
      rewrite flat_map_emitted_filter, flat_map_concat_map, filter_rev.
      f_equal. apply map_ext_in. intros x Hx.
      apply in_rev in Hx. apply filter_In in Hx. destruct Hx as [Hin Hqx].
      apply emitted_writable; [exact Hqx | now apply Hws].
    + rewrite (Hgain first (or_introl eq_refl)), Hqf. reflexivity.
    + cbn [count start]. rewrite Hsum.
      * change (rev rest ++ [first]) with (rev (first :: rest)).
        rewrite filter_rev, length_rev. lia.
      * intros x Hx. apply in_rev. exact Hx.
  - intros x Hx. assert (Hwx : writable x = true) by (now apply Hw).
    rewrite <- Hchosen in Hx. apply filter_In in Hx.
    destruct Hx as [Hin Hqx].
    destruct (qualifies_inv json_loads x Hqx) as (_ & kvs & Hj & _).
    exists kvs. split; [exact Hj|].
    unfold Spec.writable, Spec.record in *. rewrite Hj in *.
    destruct (record_of repr kvs) as [ws|] eqn:Hr; [|discriminate].
    now destruct (record_of_intended repr kvs ws Hr).
Qed.

(** C2, amended: what decides is the raw text, not the parsed level.  Every
    chunk of the output file was written for a line of the log that holds
    the raw text of a member [@l] with value [Error] or [Warning] and that
    parses as an object whose message contains [Spotify]; and a line without
    that raw text is skipped whatever its parsed level. *)
Theorem output_from_prefiltered_lines (lines : list pystr)
  (printed : list pystr) :
  (forall w, In w (outfile (fst (filter_lines lines printed))) ->
     exists line,
       In line lines /\ In w (emitted line) /\
       (Substring (level_tag "Error") line \/
        Substring (level_tag "Warning") line) /\
       exists kvs, json_loads line = Some (Object kvs) /\
                   Contains (lit "Spotify") (message kvs)) /\
  (forall line st, prefilter line = false -> body line st = st).
Proof.
  split; [|intros line st; apply body_skip_prefilter].
  intros w Hw. unfold LogFilter.filter_lines in Hw.
  change (mkState [] 0 printed) with (start printed) in Hw.
  destruct (scan_split json_loads repr (rev lines) (start printed))
    as (ex & rest & Hsplit & Hscan & _); [cbn; unfold cap; lia|].
  rewrite Hscan in Hw. cbn [fst extend outfile start app] in Hw.
  apply in_flat_map in Hw. destruct Hw as (line & Hin & Hw).
  exists line. split.
  { apply in_rev. rewrite Hsplit. apply in_or_app. now left. }
  split; [exact Hw|].
  destruct (qualifies line) eqn:Hq.
  - destruct (qualifies_inv json_loads line Hq) as (Hp & kvs & Hj & Hm).
    split.
    + unfold prefilter in Hp. apply orb_true_iff in Hp.
      destruct Hp as [Hp | Hp]; [left | right]; now apply contains_spec.
    + exists kvs. split; [exact Hj | now apply mentions_spec].
  - rewrite (emitted_unqualified json_loads repr line Hq) in Hw.
    destruct Hw.
Qed.

(** C8: for a matched entry whose [@x] is a string of more than 500
    characters, the Exception line is the fixed prefix, the first 500
    characters of [@x], the marker [...] and the line end, and nothing else:
    every chunk written for the entry that begins with the word [Exception]
    is that line, and it closes the record whenever the record is written
    in full. *)
Theorem exception_truncated (line : pystr) (kvs : list (pystr * value))
  (x : pystr) :
  qualifies line = true ->
  json_loads line = Some (Object kvs) ->
  lookup (lit "@x") kvs = Some (Str x) ->
  500 < List.length x ->
  (forall w, In w (emitted line) ->
     startswith (lit "   Exception: ") w = true ->
     w = lit "   Exception: " ++ firstn 500 x ++ lit "..." ++ [NL]) /\
  (writable line = true ->
   exists before,
     emitted line =
       before ++ [lit "   Exception: " ++ firstn 500 x ++ lit "..." ++ [NL]] /\
     gain line = 1) /\
  List.length (firstn 500 x) = 500 /\
  x = firstn 500 x ++ skipn 500 x /\
  skipn 500 x <> [].
Proof.
  intros Hq Hj Hx Hlen.
  destruct (exception_chunk json_loads repr line kvs (Str x) Hq Hj Hx)
    as [Hany Hfull].
  split; [|split; [|split; [|split]]].
  - intros w Hin Hw. destruct (Hany w Hin Hw) as (x500 & Hs & ->).
    unfold Json.slice_to, PyStr.slice_to in Hs. injection Hs as <-.
    reflexivity.
  - intros Hw. destruct (Hfull Hw) as (x500 & before & Hs & He & Hg).
    unfold Json.slice_to, PyStr.slice_to in Hs. injection Hs as <-.
    exists before. split; [exact He | exact Hg].
  - apply firstn_length_le. lia.
  - symmetry. apply firstn_skipn.
  - intros H. apply (f_equal (@List.length _)) in H.
    rewrite length_skipn in H. simpl in H. lia.
Qed.

(** C9: for a matched entry with a member [@x], the marker [...] follows the
    exception text ([shown]) in every case: the Exception line is the prefix,
    [shown], the marker and the line end, and for a string of 500 characters
    or fewer [shown] is the whole string, so the marker does not tell that
    anything was cut. *)
Theorem ellipsis_unconditional (line : pystr) (kvs : list (pystr * value))
  (x : value) :
  qualifies line = true ->
  json_loads line = Some (Object kvs) ->
  lookup (lit "@x") kvs = Some x ->
  exists shown,
    (forall w, In w (emitted line) ->
       startswith (lit "   Exception: ") w = true ->
       w = lit "   Exception: " ++ shown ++ lit "..." ++ [NL]) /\
    (writable line = true ->
     exists before,
       emitted line =
         before ++ [lit "   Exception: " ++ shown ++ lit "..." ++ [NL]] /\
       gain line = 1) /\
    (forall s, x = Str s -> List.length s <= 500 -> shown = s).
Proof.
  intros Hq Hj Hx.
  destruct (exception_chunk json_loads repr line kvs x Hq Hj Hx)
    as [Hany Hfull].
  exists (match Json.slice_to 500 x with
          | Ok x500 => fmt repr x500
          | Raise _ => []
          end).
  split; [|split].
  - intros w Hin Hw. destruct (Hany w Hin Hw) as (x500 & -> & ->).
    reflexivity.
  - intros Hw. destruct (Hfull Hw) as (x500 & before & -> & He & Hg).
    exists before. split; [exact He | exact Hg].
  - intros s -> Hlen. unfold Json.slice_to, fmt, text, PyStr.slice_to.
    now apply firstn_all2.
Qed.

(** C10: writing a record is not atomic.  When the main line of a matched
    entry has been written and the rest of the record cannot be, the main
    line stays in the output and the match is not counted; this is so for an
    entry whose [@x] is neither a string nor a list, which keeps its main,
    Status and Response lines; and a log made of such entries has all of its
    main lines written, however many there are, with the counter left at
    zero. *)
Theorem partial_record_not_counted :
  (forall line kvs st,
     qualifies line = true ->
     json_loads line = Some (Object kvs) ->
     utf8_ok (head_line kvs) = true ->
     writable line = false ->
     exists ws, body line st = extend st (head_line kvs :: ws) 0) /\
  (forall line kvs x st,
     qualifies line = true ->
     json_loads line = Some (Object kvs) ->
     lookup (lit "@x") kvs = Some x ->
     (forall s, x <> Str s) -> (forall xs, x <> Array xs) ->
     forallb utf8_ok
       (head_line kvs ::
        optional_line "Status" (status_line repr) kvs ++
        optional_line "Response" (response_line repr) kvs) = true ->
     body line st =
     extend st
       (head_line kvs ::
        optional_line "Status" (status_line repr) kvs ++
        optional_line "Response" (response_line repr) kvs) 0) /\
  (forall lines printed,
     (forall line, In line lines ->
        qualifies line = true /\ writable line = false /\
        exists kvs, json_loads line = Some (Object kvs) /\
                    utf8_ok (head_line kvs) = true) ->
     filter_lines lines printed =
       (mkState (List.concat (List.map emitted (rev lines))) 0 printed, []) /\
     (forall line, In line lines ->
        exists kvs ws, json_loads line = Some (Object kvs) /\
                       emitted line = head_line kvs :: ws)).
Proof.
  assert (Hpartial : forall line kvs st,
     qualifies line = true ->
     json_loads line = Some (Object kvs) ->
     utf8_ok (head_line kvs) = true ->
     writable line = false ->
     exists ws, body line st = extend st (head_line kvs :: ws) 0).
  { intros line kvs st Hq Hj Hh Hw.
    destruct (qualifies_inv json_loads line Hq) as (Hp & kvs' & Hj' & Hm).
    rewrite Hj in Hj'. injection Hj' as <-.
    rewrite (body_qualified json_loads repr line kvs st Hp Hj Hm).
    unfold Spec.writable in Hw. rewrite Hj in Hw.
    destruct (record_of repr kvs); [discriminate|].
    unfold Spec.intended. cbn [encodable_prefix]. rewrite Hh.
    eexists. reflexivity. }
  split; [exact Hpartial | split].
  - intros line kvs x st Hq Hj Hx Hstr Harr Henc.
    destruct (qualifies_inv json_loads line Hq) as (Hp & kvs' & Hj' & Hm).
    rewrite Hj in Hj'. injection Hj' as <-.
    rewrite (body_qualified json_loads repr line kvs st Hp Hj Hm).
    assert (Hex : exception_part repr kvs = None).
    { unfold Spec.exception_part. rewrite Hx.
      destruct x; try reflexivity; [now elim (Hstr s) | now elim (Harr xs)]. }
    unfold Spec.record_of, Spec.intended. rewrite Hex, app_nil_r.
    now rewrite encodable_prefix_all.
  - intros lines printed Hall.
    assert (Hgain : forall l, In l (rev lines) -> gain l = 0).
    { intros l Hl. apply in_rev in Hl.
      destruct (Hall l Hl) as (Hq & Hw & _).
      rewrite gain_spec, Hq, Hw. reflexivity. }
    split.
    + unfold LogFilter.filter_lines.
      change (mkState [] 0 printed) with (start printed).
      destruct (scan_split json_loads repr (rev lines) (start printed))
        as (ex & rest & Hsplit & Hscan & _ & Hstop & _);
        [cbn; unfold cap; lia|].
      assert (Hzero : gains_of ex = 0).
      { clear Hscan Hstop.
        assert (Hin : forall l, In l ex -> gain l = 0).
        { intros l Hl. apply Hgain. rewrite Hsplit. apply in_or_app. now left. }
        clear Hsplit. induction ex as [|a ex IH]; [reflexivity|].
        simpl. rewrite (Hin a (or_introl eq_refl)), IH; [reflexivity|].
        intros l Hl. apply Hin. now right. }
      rewrite Hzero in *. cbn [count start] in Hstop.
      destruct Hstop as [-> | Hstop]; [|unfold cap in Hstop; lia].
      rewrite app_nil_r in Hsplit. subst ex.
      rewrite Hscan. unfold extend, start. cbn [outfile count console app].
      now rewrite flat_map_concat_map.
    + intros line Hl. destruct (Hall line Hl) as (Hq & Hw & kvs & Hj & Hh).
      destruct (Hpartial line kvs (start []) Hq Hj Hh Hw) as (ws & Hb).
      exists kvs, ws. split; [exact Hj|].
      unfold Spec.emitted. now rewrite Hb.
Qed.

(** The counter never passes the cap. *)
Theorem count_bounded (lines : list pystr) (printed : list pystr) :
  count (fst (filter_lines lines printed)) <= cap.
Proof.
  unfold LogFilter.filter_lines.
  change (mkState [] 0 printed) with (start printed).
  destruct (scan_split json_loads repr (rev lines) (start printed))
    as (ex & rest & _ & Hscan & Hle & _); [cbn; unfold cap; lia|].
  rewrite Hscan. exact Hle.
Qed.

(** The loop prints nothing: the console is after the loop what it was
    before. *)
Theorem loop_is_silent (lines : list pystr) (printed : list pystr) :
  console (fst (filter_lines lines printed)) = printed.
Proof.
  unfold LogFilter.filter_lines.
  change (mkState [] 0 printed) with (start printed).
  destruct (scan_split json_loads repr (rev lines) (start printed))
    as (ex & rest & _ & Hscan & _); [cbn; unfold cap; lia|].
  rewrite Hscan. reflexivity.
Qed.

(** When the log file reads as UTF-8 text and the output file can be opened
    for writing, the program runs to its end: it prints the number of lines
    and the header, and leaves the chunks of the loop, one after the other,
    as the content of the output file, whatever that file held before; the
    other files are as they were. *)
Theorem program_writes_output (w : world) (content : pystr) :
  files w log_file = Some (Text content) ->
  sealed w out_file = false ->
  fst (program w) = Completed /\
  files (snd (program w)) out_file =
    Some (Text (List.concat
                  (outfile (fst (filter_lines (readlines content) []))))) /\
  (forall p, p <> out_file -> files (snd (program w)) p = files w p) /\
  stdout (snd (program w)) =
    stdout w ++
    [lit "Total lines: " ++ of_nat (List.length (readlines content)) ++ [NL];
     lit "Last 10 Errors/Warnings with 'Spotify':" ++ [NL]].
Proof.
  intros H Hs. unfold LogFilter.program. rewrite H.
  cbn [sealed print]. rewrite Hs. cbn [fst snd files stdout].
  split; [reflexivity|]. split; [|split].
  - unfold store. rewrite String.eqb_refl. f_equal. f_equal. f_equal.
    unfold LogFilter.filter_lines.
    apply scan_console_irrelevant; reflexivity.
  - intros p Hp. unfold store.
    destruct (String.eqb p out_file) eqn:E; [|reflexivity].
    apply String.eqb_eq in E. contradiction.
  - rewrite loop_is_silent. unfold print. cbn [stdout files sealed].
    rewrite <- app_assoc. reflexivity.
Qed.

(** A matched entry with a [Status] member and neither [Response] nor [@x]
    gets its main line and the Status line, and nothing more. *)
Theorem status_only_record (line : pystr) (kvs : list (pystr * value))
  (s : value) (st : state) :
  qualifies line = true ->
  json_loads line = Some (Object kvs) ->
  lookup (lit "Status") kvs = Some s ->
  lookup (lit "Response") kvs = None ->
  lookup (lit "@x") kvs = None ->
  utf8_ok (head_line kvs) = true ->
  utf8_ok (status_line repr s) = true ->
  body line st = extend st [head_line kvs; status_line repr s] 1.
Proof.
  intros Hq Hj Hs Hr Hx Hh Hl.
  destruct (qualifies_inv json_loads line Hq) as (Hp & kvs' & Hj' & Hm).
  rewrite Hj in Hj'. injection Hj' as <-.
  apply (body_record json_loads repr line kvs _ st Hp Hj Hm).
  unfold Spec.record_of, Spec.exception_part, Spec.optional_line.
  rewrite Hs, Hr, Hx. cbn [app forallb]. now rewrite Hh, Hl.
Qed.

(** *** Further properties of the loop *)

(** The loop in general: it runs the body on a final stretch [ex] of the
    file and on nothing before it.  The output is what the lines of [ex]
    emit, the last line first; the counter is the number of lines of [ex]
    that qualify and were written in full; and [ex] is the whole file unless
    the counter reached the cap, in which case [ex] begins with the line
    whose match filled it. *)
Theorem scan_examines_a_suffix (lines : list pystr) (printed : list pystr) :
  exists pre ex,
    lines = pre ++ ex /\
    filter_lines lines printed =
      (mkState (List.concat (List.map emitted (rev ex)))
         (List.length (filter counted ex)) printed,
       rev pre) /\
    List.length (filter counted ex) <= cap /\
    (pre = [] \/
     (List.length (filter counted ex) = cap /\
      exists l ex', ex = l :: ex' /\ counted l = true)).
Proof.
  destruct (scan_split json_loads repr (rev lines) (start printed))
    as (ex0 & rest & Hsplit & Hscan & Hle & Hstop & _ & Hlast);
    [cbn; unfold cap; lia|].
  cbn [count start] in Hle, Hstop, Hlast. rewrite Nat.add_0_l in *.
  rewrite gains_counted in *.
  assert (Hlen : List.length (filter counted (rev ex0)) =
                 List.length (filter counted ex0))
    by (now rewrite filter_rev, length_rev).
  exists (rev rest), (rev ex0). split.
  { rewrite <- rev_app_distr, <- Hsplit. now rewrite rev_involutive. }
  split.
  { unfold LogFilter.filter_lines.
    change (mkState [] 0 printed) with (start printed).
    rewrite Hscan, !rev_involutive, Hlen.
    unfold extend, start. cbn [outfile count console app].
    now rewrite flat_map_concat_map. }
  rewrite Hlen. split; [exact Hle|].
  destruct Hstop as [-> | Hfull]; [now left | right].
  split; [exact Hfull|].
  destruct Hlast as (ex1 & l & -> & Hl); [unfold cap; lia | exact Hfull |].
  exists l, (rev ex1). split; [now rewrite rev_app_distr|].
  rewrite gain_counted in Hl. destruct (counted l); [reflexivity | discriminate].
Qed.

(** Old lines do not matter: when the end [suf] of the file holds thirty
    lines that are counted, whatever stands before it leaves the output and
    the counter as they are without it. *)
Theorem old_lines_ignored (pre suf : list pystr) (printed : list pystr) :
  cap <= List.length (filter counted suf) ->
  fst (filter_lines (pre ++ suf) printed) = fst (filter_lines suf printed).
Proof.
  intros H. unfold LogFilter.filter_lines. rewrite rev_app_distr.
  apply scan_full_prefix.
  - cbn. unfold cap. lia.
  - cbn [count]. rewrite gains_counted, filter_rev, length_rev. exact H.
Qed.

(** Only the qualifying lines matter: the loop ends in the same state on the
    file and on the file without its other lines. *)
Theorem only_qualifying_lines_matter (lines : list pystr)
  (printed : list pystr) :
  fst (filter_lines lines printed) =
  fst (filter_lines (filter qualifies lines) printed).
Proof.
  unfold LogFilter.filter_lines. rewrite scan_filter, filter_rev.
  reflexivity.
Qed.

(** When the body acts: one run of the body changes the state exactly when
    the raw line holds one of the two level texts, decodes to an object
    whose message contains [Spotify], and the main line can be encoded. *)
Theorem body_acts_iff (line : pystr) (st : state) :
  body line st <> st <->
  (Substring (level_tag "Error") line \/
   Substring (level_tag "Warning") line) /\
  exists kvs,
    json_loads line = Some (Object kvs) /\
    Contains (lit "Spotify") (message kvs) /\
    utf8_ok (head_line kvs) = true.
Proof.
  split.
  - intros Hne. destruct (qualifies line) eqn:Hq;
      [|now elim Hne; apply body_unqualified].
    destruct (qualifies_inv json_loads line Hq) as (Hp & kvs & Hj & Hm).
    split.
    { unfold prefilter in Hp. apply orb_true_iff in Hp.
      destruct Hp as [Hp | Hp]; [left | right]; now apply contains_spec. }
    exists kvs. split; [exact Hj|]. split; [now apply mentions_spec|].
    destruct (utf8_ok (head_line kvs)) eqn:Hh; [reflexivity|].
    elim Hne. rewrite (body_qualified json_loads repr line kvs st Hp Hj Hm).
    unfold Spec.intended, Spec.record_of. cbn [encodable_prefix].
    rewrite Hh. destruct (exception_part repr kvs);
      cbn [forallb]; rewrite ?Hh; cbn [andb]; apply extend_nil.
  - intros (Hraw & kvs & Hj & Hm & Hh) Heq.
    assert (Hp : prefilter line = true).
    { unfold prefilter. apply orb_true_iff.
      destruct Hraw as [H | H]; [left | right]; now apply contains_spec. }
    apply mentions_spec in Hm.
    rewrite (body_qualified json_loads repr line kvs st Hp Hj Hm) in Heq.
    unfold Spec.intended in Heq. cbn [encodable_prefix] in Heq.
    rewrite Hh in Heq. apply (f_equal outfile) in Heq.
    apply (f_equal (@List.length _)) in Heq.
    cbn [outfile extend] in Heq. rewrite length_app in Heq.
    simpl in Heq. lia.
Qed.

(** The format of a record: for a qualifying entry whose [@x], if any, is a
    string or a list, and whose lines can all be encoded, the body appends
    the main line, then the [Status] line, the [Response] line and the
    Exception line of the members that are present, in this order, and
    counts one match. *)
Theorem record_format (line : pystr) (kvs : list (pystr * value))
  (st : state) :
  qualifies line = true ->
  json_loads line = Some (Object kvs) ->
  (forall x, lookup (lit "@x") kvs = Some x ->
     (exists s, x = Str s) \/ (exists xs, x = Array xs)) ->
  forallb utf8_ok (intended kvs) = true ->
  body line st =
  extend st
    (main_line repr (member "@t" kvs) (member "@l" kvs) (message kvs) ::
     optional_line "Status" (status_line repr) kvs ++
     optional_line "Response" (response_line repr) kvs ++
     optional_line "@x"
       (fun x =>
          match Json.slice_to 500 x with
          | Ok x500 => exception_line repr x500
          | Raise _ => []
          end) kvs)
    1.
Proof.
  intros Hq Hj Hx Henc.
  destruct (qualifies_inv json_loads line Hq) as (Hp & kvs' & Hj' & Hm).
  rewrite Hj in Hj'. injection Hj' as <-.
  apply (body_record json_loads repr line kvs _ st Hp Hj Hm).
  unfold Spec.record_of, Spec.intended, Spec.exception_part,
    Spec.optional_line, Spec.head_line in *.
  destruct (lookup (lit "@x") kvs) as [x|].
  - destruct (Hx x eq_refl) as [[s ->] | [xs ->]];
      cbn [Json.slice_to] in *; now rewrite Henc.
  - now rewrite Henc.
Qed.

(** What the output is made of: every chunk written to the output file can
    be encoded as UTF-8 and ends with a line feed. *)
Theorem chunks_well_formed (lines : list pystr) (printed : list pystr)
  (w : pystr) :
  In w (outfile (fst (filter_lines lines printed))) ->
  utf8_ok w = true /\ exists t, w = t ++ [NL].
Proof.
  intros Hw. unfold LogFilter.filter_lines in Hw.
  change (mkState [] 0 printed) with (start printed) in Hw.
  destruct (scan_split json_loads repr (rev lines) (start printed))
    as (ex & rest & _ & Hscan & _); [cbn; unfold cap; lia|].
  rewrite Hscan in Hw. cbn [fst extend outfile start app] in Hw.
  apply in_flat_map in Hw. destruct Hw as (line & _ & Hw).
  destruct (qualifies line) eqn:Hq.
  - destruct (qualifies_inv json_loads line Hq) as (_ & kvs & Hj & _).
    rewrite (emitted_qualified json_loads repr line kvs Hq Hj) in Hw.
    split; [now apply encodable_prefix_ok in Hw|].
    apply encodable_prefix_incl in Hw.
    now apply (intended_ends_nl repr kvs).
  - rewrite (emitted_unqualified json_loads repr line Hq) in Hw.
    destruct Hw.
Qed.

(** A log without a qualifying line: when the log reads as UTF-8 text and
    the output file can be opened for writing, the program still opens the
    output file, so the file ends up empty whatever it held before. *)
Theorem quiet_log_empties_output (w : world) (content : pystr) :
  files w log_file = Some (Text content) ->
  sealed w out_file = false ->
  (forall l, In l (readlines content) -> qualifies l = false) ->
  fst (program w) = Completed /\
  files (snd (program w)) out_file = Some (Text []).
Proof.
  intros H Hs Hnone. unfold LogFilter.program. rewrite H.
  cbn [sealed print]. rewrite Hs. cbn [fst snd files].
  split; [reflexivity|].
  unfold store. rewrite String.eqb_refl. f_equal. f_equal.
  unfold LogFilter.filter_lines. rewrite scan_filter, filter_rev.
  replace (filter qualifies (readlines content)) with (@nil pystr);
    [reflexivity|].
  symmetry. induction (readlines content) as [|l r IH]; [reflexivity|].
  simpl. rewrite (Hnone l (or_introl eq_refl)).
  apply IH. intros x Hx. apply Hnone. now right.
Qed.

(** Running the program again changes no file: the log is not touched and
    the output file is written with the same content. *)
Theorem rerun_same_files (w : world) (p : string) :
  files (snd (program (snd (program w)))) p = files (snd (program w)) p.
Proof.
  assert (Hkeep : forall v, sealed (snd (program v)) out_file =
                            sealed v out_file).
  { intros v. unfold LogFilter.program.
    destruct (files v log_file) as [[content|]|]; try reflexivity.
    cbn [sealed print].
    destruct (sealed v out_file) eqn:E; cbn [snd sealed print]; congruence. }
  destruct (files w log_file) as [[content|]|] eqn:H.
  - destruct (sealed w out_file) eqn:Hs.
    + assert (Hrun : forall v, files v log_file = Some (Text content) ->
                sealed v out_file = true ->
                forall q, files (snd (program v)) q = files v q).
      { intros v Hv Hsv q. unfold LogFilter.program. rewrite Hv.
        cbn [sealed print]. now rewrite Hsv. }
      rewrite (Hrun (snd (program w))).
      * reflexivity.
      * now rewrite (Hrun w H Hs).
      * now rewrite Hkeep.
    + assert (Hrun : forall v, files v log_file = Some (Text content) ->
                sealed v out_file = false ->
                files (snd (program v)) log_file = Some (Text content) /\
                forall q, files (snd (program v)) q =
                  if String.eqb q out_file
                  then Some (Text (List.concat
                               (outfile
                                  (fst (filter_lines (readlines content)
                                          [])))))
                  else files v q).
      { intros v Hv Hsv. unfold LogFilter.program. rewrite Hv.
        cbn [sealed print]. rewrite Hsv. cbn [snd files]. unfold store.
        split; [exact Hv|]. intros q.
        destruct (String.eqb q out_file); [|reflexivity].
        f_equal. f_equal. f_equal. unfold LogFilter.filter_lines.
        apply scan_console_irrelevant; reflexivity. }
      destruct (Hrun w H Hs) as [H1 Hw].
      assert (Hs1 : sealed (snd (program w)) out_file = false)
        by (now rewrite Hkeep).
      destruct (Hrun (snd (program w)) H1 Hs1) as [_ Hw'].
      rewrite Hw', Hw. now destruct (String.eqb p out_file).
  - unfold LogFilter.program at 2 3. rewrite H. cbn [snd].
    unfold LogFilter.program. now rewrite H.
  - unfold LogFilter.program at 2 3. rewrite H. cbn [snd].
    unfold LogFilter.program. cbn [files print]. rewrite H. reflexivity.
Qed.


(** A list as [@x]: the Exception line shows the [repr] of its first 500
    elements, followed by the marker, and the match is counted. *)
Theorem list_exception_sliced (line : pystr) (kvs : list (pystr * value))
  (xs : list value) :
  qualifies line = true ->
  json_loads line = Some (Object kvs) ->
  lookup (lit "@x") kvs = Some (Array xs) ->
  writable line = true ->
  exists before,
    emitted line =
      before ++
      [lit "   Exception: " ++ repr (Array (firstn 500 xs)) ++ lit "..."
       ++ [NL]] /\
    gain line = 1.
Proof.
  intros Hq Hj Hx Hw.
  destruct (exception_chunk json_loads repr line kvs (Array xs) Hq Hj Hx)
    as [_ Hfull].
  destruct (Hfull Hw) as (x500 & before & Hs & He & Hg).
  cbn [Json.slice_to] in Hs. injection Hs as <-.
  exists before. split; [exact He | exact Hg].
Qed.

(** Missing members: for a qualifying entry without [@t] and without a
    top-level [@l], nothing raises: the main line carries the [repr] of
    [None] in their place, and it is written whenever it can be encoded;
    when it cannot, nothing is written for the entry. *)
Theorem missing_fields_render_null (line : pystr)
  (kvs : list (pystr * value)) :
  qualifies line = true ->
  json_loads line = Some (Object kvs) ->
  lookup (lit "@t") kvs = None ->
  lookup (lit "@l") kvs = None ->
  (utf8_ok (lit "[" ++ repr Null ++ lit "] " ++ repr Null ++ lit ": "
            ++ fmt repr (message kvs) ++ [NL]) = true ->
   exists rest,
     emitted line =
       (lit "[" ++ repr Null ++ lit "] " ++ repr Null ++ lit ": "
        ++ fmt repr (message kvs) ++ [NL]) :: rest) /\
  (utf8_ok (lit "[" ++ repr Null ++ lit "] " ++ repr Null ++ lit ": "
            ++ fmt repr (message kvs) ++ [NL]) = false ->
   emitted line = []).
Proof.
  intros Hq Hj Ht Hl.
  rewrite (emitted_qualified json_loads repr line kvs Hq Hj).
  unfold Spec.intended, Spec.head_line, member.
  rewrite Ht, Hl. cbn [encodable_prefix].
  change (main_line repr Null Null (message kvs))
    with (lit "[" ++ repr Null ++ lit "] " ++ repr Null ++ lit ": "
          ++ fmt repr (message kvs) ++ [NL]).
  split; intros Henc; rewrite Henc; [eexists|]; reflexivity.
Qed.

End Script.

(** *** Reading the log *)

(** Reading loses nothing: for a text without carriage returns, the lines
    put end to end are the text. *)
Theorem readlines_round_trip (s : pystr) :
  no_cr s = true -> List.concat (readlines s) = s.
Proof.
  intros H. unfold readlines. now rewrite readlines_from_concat.
Qed.

(** Every line read is non-empty, holds no carriage return, and holds a
    line feed at most as its last character. *)
Theorem readlines_lines (s : pystr) (l : pystr) :
  In l (readlines s) ->
  exists t c, l = t ++ [c] /\ ~ In NL t /\ ~ In 13%N l.
Proof.
  intros H.
  apply (readlines_from_shape (List.length s) s []);
    [apply Nat.le_refl | intros c [] | exact H].
Qed.

(** *** The properties on sample lines *)

Import Samples.

Lemma missing_log_file_example :
  files empty_world log_file = None /\
  LogFilter.program Ref.loads Ref.repr empty_world =
  (Exited,
   mkWorld (files empty_world) (sealed empty_world)
     [lit "Log file not found" ++ [NL]]).
Proof.
  split; [reflexivity|].
  apply (missing_log_file Ref.loads Ref.repr empty_world). reflexivity.
Defined.

Lemma malformed_line_dropped_example :
  prefilter torn_error = true /\
  Ref.loads torn_error = None /\
  fst (LogFilter.filter_lines Ref.loads Ref.repr
         [spotify_warning; torn_error; spotify_error] []) =
  mkState
    (List.concat
       (List.map (emitted Ref.loads Ref.repr)
          (rev ([spotify_warning] ++ [spotify_error]))))
    (List.length
       (filter (Spec.counted Ref.loads Ref.repr)
          ([spotify_warning] ++ [spotify_error])))
    [].
Proof.
  split; [vm_compute; reflexivity | split; [vm_compute; reflexivity|]].
  refine (proj2 (proj2 (proj2 (proj2
            (malformed_line_dropped Ref.loads Ref.repr torn_error _ _))))
            [spotify_warning] [spotify_error] [] _).
  - vm_compute. reflexivity.
  - vm_compute. reflexivity.
  - apply Nat.leb_le. vm_compute. reflexivity.
Defined.

(** The run around the torn line: the error after it in the file is written
    first, the torn line leaves nothing, and the warning before it is
    written next; two matches are counted. *)
Lemma torn_log_output :
  LogFilter.filter_lines Ref.loads Ref.repr
    [spotify_warning; torn_error; spotify_error] [] =
  (mkState
     [lit "[2025-12-26T10:00:00Z] Error: Spotify auth failed" ++ [NL];
      lit "[2025-12-26T10:05:00Z] Warning: Spotify rate limit" ++ [NL];
      lit "   Status: 429" ++ [NL];
      lit "   Response: slow down" ++ [NL];
      lit "   Exception: RateLimitException: retry later..." ++ [NL]]
     2 [],
   []).
Proof. vm_compute. reflexivity. Qed.

Lemma no_spotify_no_record_example :
  prefilter other_warning = true /\
  LogFilter.body Ref.loads Ref.repr other_warning (start []) = start [].
Proof.
  split; [vm_compute; reflexivity|].
  eapply (no_spotify_no_record Ref.loads Ref.repr other_warning _ (start [])).
  - vm_compute; reflexivity.
  - vm_compute; reflexivity.
  - intros kvs E. injection E as <-.
    apply contains_false. vm_compute; reflexivity.
Defined.

(** The entry with a blank after the colon parses as an error about Spotify
    and is left out all the same. *)
Lemma prefilter_is_lexical_example :
  (exists kvs,
     Ref.loads spaced_error = Some (Object kvs) /\
     lookup (lit "@l") kvs = Some (Str (lit "Error")) /\
     mentions (lit "Spotify") (message kvs) = true) /\
  LogFilter.body Ref.loads Ref.repr spaced_error (start []) = start [].
Proof.
  split.
  - eexists. split; [vm_compute; reflexivity|].
    split; vm_compute; reflexivity.
  - apply (prefilter_is_lexical Ref.loads Ref.repr spaced_error (start []));
      apply contains_false; vm_compute; reflexivity.
Defined.


Lemma cap_keeps_last_thirty_example :
  exists pre first rest,
    mixed_log = pre ++ first :: rest /\
    qualifies Ref.loads first = true /\
    filter (qualifies Ref.loads) (first :: rest) =
      lastn cap (filter (qualifies Ref.loads) mixed_log) /\
    List.length (lastn cap (filter (qualifies Ref.loads) mixed_log)) = cap /\
    LogFilter.filter_lines Ref.loads Ref.repr mixed_log [] =
      (mkState
         (List.concat
            (List.map (record Ref.loads Ref.repr)
               (rev (lastn cap (filter (qualifies Ref.loads) mixed_log)))))
         cap [],
       rev pre) /\
    (forall l, In l (lastn cap (filter (qualifies Ref.loads) mixed_log)) ->
       exists kvs, Ref.loads l = Some (Object kvs) /\
                   record Ref.loads Ref.repr l = intended Ref.repr kvs).
Proof.
  apply (cap_keeps_last_thirty Ref.loads Ref.repr mixed_log []).
  - apply (proj1 (forallb_forall (writable Ref.loads Ref.repr) _)).
    vm_compute. reflexivity.
  - apply Nat.ltb_lt. vm_compute. reflexivity.
Defined.

(** The run on the mixed log: the record of the last warning, then the
    twenty-nine errors, and the first three lines of the file left alone,
    the qualifying line that cannot be written in full among them. *)
Lemma mixed_log_output :
  List.length (filter (qualifies Ref.loads) mixed_log) = 32 /\
  writable Ref.loads Ref.repr numeric_exception = false /\
  LogFilter.filter_lines Ref.loads Ref.repr mixed_log [] =
    (mkState
       ([lit "[2025-12-26T10:05:00Z] Warning: Spotify rate limit" ++ [NL];
         lit "   Status: 429" ++ [NL];
         lit "   Response: slow down" ++ [NL];
         lit "   Exception: RateLimitException: retry later..." ++ [NL]] ++
        repeat (lit "[2025-12-26T10:00:00Z] Error: Spotify auth failed"
                ++ [NL]) 29)
       30 [],
     [torn_error; spotify_warning; numeric_exception]).
Proof. repeat split; vm_compute; reflexivity. Qed.

(** The claim of C1 as it stands fails when a qualifying line cannot be
    written in full: this log has thirty-two qualifying lines, and the
    output holds thirty-one main record lines, the first of them for the
    tail line, which was not counted; it is not the records of the last
    thirty qualifying lines. *)
Lemma cap_counterexample :
  List.length (filter (qualifies Ref.loads) long_log_bad_tail) = 32 /\
  LogFilter.filter_lines Ref.loads Ref.repr long_log_bad_tail [] =
    (mkState
       ((lit "[2025-12-26T10:04:00Z] Error: Spotify auth failed" ++ [NL]) ::
        (lit "   Status: 401" ++ [NL]) ::
        repeat (lit "[2025-12-26T10:00:00Z] Error: Spotify auth failed"
                ++ [NL]) 30)
       30 [],
     [spotify_error]) /\
  outfile (fst (LogFilter.filter_lines Ref.loads Ref.repr
                  long_log_bad_tail [])) <>
  List.concat
    (List.map (record Ref.loads Ref.repr)
       (rev (lastn cap (filter (qualifies Ref.loads) long_log_bad_tail)))).
Proof.
  split; [vm_compute; reflexivity|].
  split; [vm_compute; reflexivity|].
  intros H. apply (f_equal (@List.length _)) in H.
  vm_compute in H. discriminate.
Qed.

Lemma output_from_prefiltered_lines_example :
  exists line,
    In line small_log /\
    In (lit "   Status: 429" ++ [NL]) (emitted Ref.loads Ref.repr line) /\
    (Substring (level_tag "Error") line \/
     Substring (level_tag "Warning") line) /\
    exists kvs, Ref.loads line = Some (Object kvs) /\
                Contains (lit "Spotify") (message kvs).
Proof.
  apply (proj1 (output_from_prefiltered_lines Ref.loads Ref.repr
                  small_log [])).
  vm_compute. tauto.
Defined.

(** The claim of C2 as it stands fails on an entry whose level is
    [Information] and which carries the raw text elsewhere: it is written to
    the output. *)
Lemma level_counterexample :
  (exists kvs,
     Ref.loads nested_level = Some (Object kvs) /\
     lookup (lit "@l") kvs = Some (Str (lit "Information"))) /\
  outfile (fst (LogFilter.filter_lines Ref.loads Ref.repr [nested_level] []))
  = [lit "[2025-12-26T10:03:00Z] Information: Spotify sync done" ++ [NL]].
Proof.
  split.
  - eexists. split; vm_compute; reflexivity.
  - vm_compute. reflexivity.
Qed.

Lemma exception_truncated_example :
  exists before,
    emitted Ref.loads Ref.repr long_exception =
      before ++
      [lit "   Exception: " ++ firstn 500 long_trace ++ lit "..." ++ [NL]] /\
    gain Ref.loads Ref.repr long_exception = 1.
Proof.
  refine (proj1 (proj2 (exception_truncated Ref.loads Ref.repr
                          long_exception (members long_exception)
                          long_trace _ _ _ _)) _).
  - vm_compute. reflexivity.
  - vm_compute. reflexivity.
  - vm_compute. reflexivity.
  - apply Nat.ltb_lt. vm_compute. reflexivity.
  - vm_compute. reflexivity.
Defined.

(** The characters of the trace after the first 500 are not in the output. *)
Lemma long_exception_output :
  emitted Ref.loads Ref.repr long_exception =
  [lit "[2025-12-26T10:06:00Z] Error: Spotify crash" ++ [NL];
   lit "   Exception: " ++ repeat 97%N 500 ++ lit "..." ++ [NL]].
Proof. vm_compute. reflexivity. Qed.

Lemma ellipsis_unconditional_example :
  exists before,
    emitted Ref.loads Ref.repr spotify_warning =
      before ++
      [lit "   Exception: RateLimitException: retry later..." ++ [NL]] /\
    gain Ref.loads Ref.repr spotify_warning = 1.
Proof.
  destruct (ellipsis_unconditional Ref.loads Ref.repr spotify_warning
              (members spotify_warning)
              (Str (lit "RateLimitException: retry later")))
    as (shown & _ & Hfull & Hshort).
  - vm_compute. reflexivity.
  - vm_compute. reflexivity.
  - vm_compute. reflexivity.
  - rewrite (Hshort (lit "RateLimitException: retry later") eq_refl) in Hfull.
    + apply Hfull. vm_compute. reflexivity.
    + apply Nat.leb_le. vm_compute. reflexivity.
Defined.

Lemma partial_record_not_counted_example :
  LogFilter.filter_lines Ref.loads Ref.repr unsliceable_log [] =
  (mkState
     (List.concat
        (List.map (emitted Ref.loads Ref.repr) (rev unsliceable_log)))
     0 [],
   []).
Proof.
  refine (proj1 (proj2 (proj2 (partial_record_not_counted
                                 Ref.loads Ref.repr))
                  unsliceable_log [] _)).
  intros line Hin. apply repeat_spec in Hin. subst line.
  split; [vm_compute; reflexivity|].
  split; [vm_compute; reflexivity|].
  eexists. split; vm_compute; reflexivity.
Defined.

(** Thirty-one main record lines in the output, and no match counted. *)
Lemma unsliceable_log_output :
  LogFilter.filter_lines Ref.loads Ref.repr unsliceable_log [] =
  (mkState
     (List.concat
        (repeat
           [lit "[2025-12-26T10:04:00Z] Error: Spotify auth failed" ++ [NL];
            lit "   Status: 401" ++ [NL]] 31))
     0 [],
   []).
Proof. vm_compute. reflexivity. Qed.

Lemma status_only_record_example :
  LogFilter.body Ref.loads Ref.repr status_only (start []) =
  mkState [lit "[T] Error: Spotify down" ++ [NL];
           lit "   Status: 503" ++ [NL]] 1 [].
Proof.
  refine (status_only_record Ref.loads Ref.repr status_only
            (members status_only) (Number (lit "503")) (start [])
            _ _ _ _ _ _ _);
    vm_compute; reflexivity.
Defined.

Lemma program_writes_output_example :
  files (snd (LogFilter.program Ref.loads Ref.repr small_world)) out_file =
  Some (Text
          (List.concat
             (outfile
                (fst (LogFilter.filter_lines Ref.loads Ref.repr
                        (readlines (List.concat small_log)) []))))).
Proof.
  refine (proj1 (proj2 (program_writes_output Ref.loads Ref.repr small_world
                          (List.concat small_log) _ _))); reflexivity.
Defined.

(** The output file of the small log: the warning, the partial record of the
    error with a numeric [@x], and the first error. *)
Lemma small_world_output :
  LogFilter.program Ref.loads Ref.repr small_world =
  (Completed,
   mkWorld
     (store out_file
        (lit "[2025-12-26T10:05:00Z] Warning: Spotify rate limit" ++ [NL] ++
         lit "   Status: 429" ++ [NL] ++
         lit "   Response: slow down" ++ [NL] ++
         lit "   Exception: RateLimitException: retry later..." ++ [NL] ++
         lit "[2025-12-26T10:04:00Z] Error: Spotify auth failed" ++ [NL] ++
         lit "   Status: 401" ++ [NL] ++
         lit "[2025-12-26T10:00:00Z] Error: Spotify auth failed" ++ [NL])
        (files small_world))
     (sealed small_world)
     [lit "Total lines: 5" ++ [NL];
      lit "Last 10 Errors/Warnings with 'Spotify':" ++ [NL]]).
Proof. vm_compute. reflexivity. Qed.

Lemma old_lines_ignored_example :
  fst (LogFilter.filter_lines Ref.loads Ref.repr
         ([numeric_exception; spotify_warning] ++ long_log) []) =
  fst (LogFilter.filter_lines Ref.loads Ref.repr long_log []).
Proof.
  apply (old_lines_ignored Ref.loads Ref.repr
           [numeric_exception; spotify_warning] long_log []).
  apply Nat.leb_le. vm_compute. reflexivity.
Defined.

Lemma record_format_example :
  LogFilter.body Ref.loads Ref.repr spotify_warning (start []) =
  mkState
    [lit "[2025-12-26T10:05:00Z] Warning: Spotify rate limit" ++ [NL];
     lit "   Status: 429" ++ [NL];
     lit "   Response: slow down" ++ [NL];
     lit "   Exception: RateLimitException: retry later..." ++ [NL]]
    1 [].
Proof.
  refine (record_format Ref.loads Ref.repr spotify_warning
            (members spotify_warning) (start []) _ _ _ _).
  - vm_compute. reflexivity.
  - vm_compute. reflexivity.
  - intros x Hx. left. vm_compute in Hx. injection Hx as <-.
    eexists. reflexivity.
  - vm_compute. reflexivity.
Defined.

Lemma chunks_well_formed_example :
  utf8_ok (lit "   Status: 401" ++ [NL]) = true /\
  exists t, lit "   Status: 401" ++ [NL] = t ++ [NL].
Proof.
  apply (chunks_well_formed Ref.loads Ref.repr small_log []
           (lit "   Status: 401" ++ [NL])).
  vm_compute. tauto.
Defined.

Lemma quiet_log_empties_output_example :
  files quiet_world out_file = Some (Text (lit "stale")) /\
  files (snd (LogFilter.program Ref.loads Ref.repr quiet_world)) out_file =
  Some (Text []).
Proof.
  split; [reflexivity|].
  refine (proj2 (quiet_log_empties_output Ref.loads Ref.repr quiet_world
                   (List.concat [other_warning; spaced_error]) _ _ _)).
  - reflexivity.
  - reflexivity.
  - intros l Hl. vm_compute in Hl.
    destruct Hl as [<- | [<- | []]]; vm_compute; reflexivity.
Defined.

Lemma list_exception_sliced_example :
  exists before,
    emitted Ref.loads Ref.repr framed_exception =
      before ++ [lit "   Exception: ['a', 'b']..." ++ [NL]] /\
    gain Ref.loads Ref.repr framed_exception = 1.
Proof.
  refine (list_exception_sliced Ref.loads Ref.repr framed_exception
            (members framed_exception)
            [Str (lit "a"); Str (lit "b")] _ _ _ _);
    vm_compute; reflexivity.
Defined.

Lemma missing_fields_render_null_example :
  exists rest,
    emitted Ref.loads Ref.repr bare_entry =
      (lit "[None] None: Spotify ping" ++ [NL]) :: rest.
Proof.
  refine (proj1 (missing_fields_render_null Ref.loads Ref.repr bare_entry
                   (members bare_entry) _ _ _ _) _);
    vm_compute; reflexivity.
Defined.

Lemma readlines_round_trip_example :
  List.concat (readlines three_lines) = three_lines.
Proof.
  apply (readlines_round_trip three_lines). reflexivity.
Defined.

Lemma readlines_lines_example :
  exists t c,
    lit "second" ++ [NL] = t ++ [c] /\
    ~ In NL t /\ ~ In 13%N (lit "second" ++ [NL]).
Proof.
  apply (readlines_lines three_lines (lit "second" ++ [NL])).
  vm_compute. tauto.
Defined.


End Properties.
